(** * wol-mqtt: a shallow embedding of [wol-mqtt.py]

    The daemon listens on an MQTT topic for wake requests and runs the
    [wakeonlan] helper.  The embedding follows the source function by
    function: [on_connect], [on_message], [send_wol], [wakeup] and the
    top-level script.  Library calls ([json.loads], [str(bytes, "UTF-8")],
    [subprocess.run], the paho client, [time.sleep], [logging]) are not part
    of the repository: what they return is supplied by the environment and
    what they do is recorded as a trace of events. *)

From Stdlib Require Import ZArith NArith List Bool Lia String Ascii DecimalString.
Import ListNotations.

Set Implicit Arguments.
Set Warnings "-register-all".

(** ** Python strings *)

(** A Python [str] is a sequence of Unicode code points. *)
Definition pystr := list N.

Definition lit (s : string) : pystr := map N_of_ascii (list_ascii_of_string s).

(** [str(n)] for an [int]. *)
Definition str_of_int (z : Z) : pystr := lit (NilZero.string_of_int (Z.to_int z)).

Definition pystr_eqb (a b : pystr) : bool :=
  if list_eq_dec N.eq_dec a b then true else false.

Fixpoint startswith (s p : pystr) {struct p} : bool :=
  match p, s with
  | [], _ => true
  | _ :: _, [] => false
  | a :: p', b :: s' => N.eqb a b && startswith s' p'
  end.

(** [needle in hay] on two strings: substring search. *)
Fixpoint str_in (needle hay : pystr) : bool :=
  startswith hay needle ||
  match hay with
  | [] => false
  | _ :: rest => str_in needle rest
  end.

(** [str.isspace] on one code point (CPython's [Py_UNICODE_ISSPACE]). *)
Definition isspace (c : N) : bool :=
  ((9 <=? c) && (c <=? 13) || (28 <=? c) && (c <=? 32) ||
   (c =? 133) || (c =? 160) || (c =? 5760) ||
   (8192 <=? c) && (c <=? 8202) || (c =? 8232) || (c =? 8233) ||
   (c =? 8239) || (c =? 8287) || (c =? 12288))%N.

Fixpoint lstrip (s : pystr) : pystr :=
  match s with
  | c :: rest => if isspace c then lstrip rest else s
  | [] => []
  end.

Definition rstrip (s : pystr) : pystr := rev (lstrip (rev s)).

(** [s.strip()] *)
Definition strip (s : pystr) : pystr := rstrip (lstrip s).

(** ** Python values, as [json.loads] produces them *)

Inductive pyval :=
| PNone
| PBool (b : bool)
| PInt (z : Z)
| PFloat (literal : pystr)   (* a float; only its type matters here *)
| PStr (s : pystr)
| PList (items : list pyval)
| PDict (items : list (pystr * pyval)).

Fixpoint lookup (key : pystr) (d : list (pystr * pyval)) : option pyval :=
  match d with
  | [] => None
  | (k, v) :: rest => if pystr_eqb k key then Some v else lookup key rest
  end.

Definition is_str (key : pystr) (v : pyval) : bool :=
  match v with PStr s => pystr_eqb s key | _ => false end.

Definition is_none (v : pyval) : bool :=
  match v with PNone => true | _ => false end.

(** ** Exceptions, library results, events *)

Inductive exn :=
| TypeError | KeyError | NameError | ValueError
| JSONDecodeError | UnicodeDecodeError
| FileNotFoundError | PermissionError
| ConnectionRefusedError | OSError
| KeyboardInterrupt.

Definition exn_eqb (a b : exn) : bool :=
  match a, b with
  | TypeError, TypeError | KeyError, KeyError | NameError, NameError
  | ValueError, ValueError | JSONDecodeError, JSONDecodeError
  | UnicodeDecodeError, UnicodeDecodeError
  | FileNotFoundError, FileNotFoundError | PermissionError, PermissionError
  | ConnectionRefusedError, ConnectionRefusedError | OSError, OSError
  | KeyboardInterrupt, KeyboardInterrupt => true
  | _, _ => false
  end.

(** What a library call gives back. *)
Inductive libres (A : Type) :=
| Returns (a : A)
| Raises (e : exn).
Arguments Raises {A} e.

(** [subprocess.CompletedProcess], with text capture. *)
Record CompletedProcess := {
  returncode : Z;
  stdout : pystr;
  stderr : pystr
}.

Definition run_outcome := libres CompletedProcess.

Inductive level := DEBUG | INFO | ERROR.

(** A log message is a finished string, or a [str.format] call kept as its
    template and keyword arguments. *)
Inductive logmsg :=
| Text (s : pystr)
| Format (template : pystr) (kwargs : list (pystr * pyval)).

Inductive event :=
| Log (lvl : level) (msg : logmsg)
| Exec (argv : list pystr) (res : run_outcome)      (* subprocess.run *)
| Sleep (secs : Z)                                  (* time.sleep *)
| Subscribe (topic : pystr)
| Publish (topic payload : pystr)
| Disconnect
| NewClient (client_id : pystr)                     (* mqtt.Client *)
| WillSet (topic payload : pystr)
| UsernamePwSet (user password : pystr)
| Connect (host : pystr) (port keepalive : Z)
| LoopStart
| LoopStop.

(** An inbound MQTT message.  The source reads [msg.payload] only through
    [str(msg.payload, "UTF-8")] and [json.loads(msg.payload)]; the record
    carries what these two library calls give for the payload. *)
Record message := {
  topic : pystr;
  payload_text : libres pystr;   (* str(msg.payload, "UTF-8") *)
  payload_json : libres pyval    (* json.loads(msg.payload) *)
}.

Inductive callback :=
| OnConnect (rc : Z)
| OnMessage (msg : message).

(** Settings read from the process environment at start-up. *)
Record config := {
  UPDATE_INTERVAL : Z;
  MQTT_BROKER : pystr;
  MQTT_PORT : Z;
  MQTT_USER : pystr;
  MQTT_PASSWORD : pystr
}.

Definition MQTT_BASE_TOPIC : pystr := lit "wol".

(** The world outside the program.
    - [helper n argv]: what the [n]-th [subprocess.run] call of the process
      gives when run with [argv];
    - [connect_fate n]: what the [n]-th [client.connect] raises, if anything;
    - [sigint n]: whether the interrupt signal is delivered at the [n]-th
      library call of the main thread;
    - [background n]: the callbacks the network thread completes just before
      the [n]-th library call of the main thread;
    - [sleep_fate secs]: what [time.sleep(secs)] raises instead of sleeping,
      if anything ([ValueError] for a negative number, [OverflowError] or
      [OSError] for one too large for the platform).  It is asked about the
      configured interval only: the other sleeps of the program have the
      constant arguments 1, 3, 5 and 30, which [time.sleep] accepts. *)
Record env := {
  helper : nat -> list pystr -> run_outcome;
  connect_fate : nat -> option exn;
  sigint : nat -> bool;
  background : nat -> list callback;
  sleep_fate : Z -> option exn
}.

(** [time.sleep] as it treats small numbers: it refuses the negative ones. *)
Definition refuse_negative (secs : Z) : option exn :=
  if (secs <? 0)%Z then Some ValueError else None.

Record state := {
  execs : nat;      (* subprocess.run calls so far *)
  calls : nat;      (* main-thread library calls so far *)
  connects : nat;   (* client.connect calls so far *)
  client : bool     (* is the global [client] bound? *)
}.

(** ** The monad: state, exceptions, and a trace of events *)

Inductive result (A : Type) :=
| Ret (a : A)
| Raise (e : exn)
| Running.          (* an unbounded loop has not finished yet *)
Arguments Raise {A} e.
Arguments Running {A}.

Definition M (Ev A : Type) : Type := state -> result A * state * list Ev.

Definition ret {Ev A} (a : A) : M Ev A := fun s => (Ret a, s, []).

Definition raise {Ev A} (e : exn) : M Ev A := fun s => (Raise e, s, []).

Definition bind {Ev A B} (m : M Ev A) (f : A -> M Ev B) : M Ev B :=
  fun s =>
    match m s with
    | (Ret a, s1, t1) => let '(r, s2, t2) := f a s1 in (r, s2, t1 ++ t2)
    | (Raise e, s1, t1) => (Raise e, s1, t1)
    | (Running, s1, t1) => (Running, s1, t1)
    end.

Notation "x <- m ;; k" := (bind m (fun x => k))
  (at level 61, m at next level, right associativity).
Notation "m ;; k" := (bind m (fun _ => k))
  (at level 61, right associativity).

Definition emit {Ev} (e : Ev) : M Ev unit := fun s => (Ret tt, s, [e]).

(** [try: body  except exc: handler] *)
Definition try_except {Ev A} (body : M Ev A) (exc : exn) (handler : M Ev A)
  : M Ev A :=
  fun s =>
    match body s with
    | (Raise e, s1, t1) =>
        if exn_eqb e exc
        then let '(r, s2, t2) := handler s1 in (r, s2, t1 ++ t2)
        else (Raise e, s1, t1)
    | other => other
    end.

Definition of_lib {Ev A} (r : libres A) : M Ev A :=
  match r with
  | Returns a => ret a
  | Raises e => raise e
  end.

(** [for x in xs: body], where the body says whether it hit [break]. *)
Inductive ctl := Next | Break.

Fixpoint for_in {Ev A} (xs : list A) (body : A -> M Ev ctl) : M Ev unit :=
  match xs with
  | [] => ret tt
  | x :: rest =>
      c <- body x ;;
      match c with
      | Break => ret tt
      | Next => for_in rest body
      end
  end.

Definition result_of {Ev A} (o : result A * state * list Ev) : result A :=
  fst (fst o).
Definition state_of {Ev A} (o : result A * state * list Ev) : state :=
  snd (fst o).
Definition trace_of {Ev A} (o : result A * state * list Ev) : list Ev :=
  snd o.

(** ** The callbacks and what they call *)

Section Callbacks.

Variable E : env.

Definition log (lvl : level) (msg : logmsg) : M event unit :=
  emit (Log lvl msg).

Definition sleep (secs : Z) : M event unit := emit (Sleep secs).

(** The argument list handed to [subprocess.run] must hold strings. *)
Fixpoint as_strs (args : list pyval) : option (list pystr) :=
  match args with
  | [] => Some []
  | PStr s :: rest =>
      match as_strs rest with
      | Some l => Some (s :: l)
      | None => None
      end
  | _ :: _ => None
  end.

(** [subprocess.run(args, capture_output=True, text=True, encoding="UTF-8")]:
    there is no [check=True], so a non-zero exit status does not raise. *)
Definition subprocess_run (args : list pyval) : M event CompletedProcess :=
  match as_strs args with
  | None => raise TypeError
  | Some argv =>
      fun s =>
        let o := helper E (execs s) argv in
        let s' := {| execs := S (execs s); calls := calls s;
                     connects := connects s; client := client s |} in
        (match o with Returns p => Ret p | Raises e => Raise e end,
         s', [Exec argv o])
  end.

Definition send_wol (mac ip : pyval) : M event bool :=
  status <- (if is_none ip
             then subprocess_run [PStr (lit "wakeonlan"); mac]
             else subprocess_run
                    [PStr (lit "wakeonlan"); PStr (lit "-i"); ip; mac]) ;;
  if negb (str_in (lit "magic packet") (stdout status)) then
    log ERROR (Format (lit "Error sending WoL packet: '{text}'")
                      [(lit "text", PStr (strip (stderr status)))]) ;;
    ret false
  else ret true.

(** [range(count)]: an [int] (a [bool] is one) or a [TypeError]. *)
Definition as_index (count : pyval) : M event Z :=
  match count with
  | PInt z => ret z
  | PBool b => ret (Z.b2z b)
  | _ => raise TypeError
  end.

Definition range (n : Z) : list Z := map Z.of_nat (seq 0 (Z.to_nat n)).

Definition wakeup (mac ip count : pyval) : M event unit :=
  (if is_none ip
   then log INFO (Format (lit "Sending WoL (x{count} to {mac}")
                         [(lit "count", count); (lit "mac", mac)])
   else log INFO (Format (lit "Sending WoL (x{count}) to {mac} via {ip}")
                         [(lit "count", count); (lit "mac", mac);
                          (lit "ip", ip)])) ;;
  n <- as_index count ;;
  for_in (range n) (fun i =>
    ok <- send_wol mac ip ;;
    if negb ok then ret Break
    else
      (if (i <? n - 1)%Z then sleep 1 else ret tt) ;;
      ret Next).

(** [key in data] *)
Definition contains (key : pystr) (data : pyval) : M event bool :=
  match data with
  | PDict d => ret (match lookup key d with Some _ => true | None => false end)
  | PList l => ret (existsb (is_str key) l)
  | PStr s => ret (str_in key s)
  | _ => raise TypeError
  end.

(** [data[key]] for a string key *)
Definition getitem (data : pyval) (key : pystr) : M event pyval :=
  match data with
  | PDict d =>
      match lookup key d with
      | Some v => ret v
      | None => raise KeyError
      end
  | _ => raise TypeError
  end.

Definition on_message (msg : message) : M event unit :=
  text <- of_lib (payload_text msg) ;;
  log DEBUG (Text (lit "MQTT: Message " ++ topic msg ++ lit " = " ++ text)) ;;
  try_except
    (data <- of_lib (payload_json msg) ;;
     has_ip <- contains (lit "ip") data ;;
     ip <- (if has_ip then getitem data (lit "ip") else ret PNone) ;;
     has_repeat <- contains (lit "repeat") data ;;
     count <- (if has_repeat then getitem data (lit "repeat")
               else ret (PInt 2)) ;;
     has_mac <- contains (lit "mac") data ;;
     if has_mac then
       mac <- getitem data (lit "mac") ;;
       wakeup mac ip count
     else
       text <- of_lib (payload_text msg) ;;
       log ERROR (Text (lit "No 'mac' provided in payload: '" ++ text
                        ++ lit "'")))
    JSONDecodeError
    (text <- of_lib (payload_text msg) ;;
     log ERROR (Text (lit "Malformed JSON payload: '" ++ text ++ lit "'"))).

Definition on_connect (rc : Z) : M event unit :=
  log INFO (Text (lit "MQTT: connected to broker with result code "
                  ++ str_of_int rc)) ;;
  if (rc =? 0)%Z then
    emit (Subscribe (MQTT_BASE_TOPIC ++ lit "/command")) ;;
    emit (Publish (MQTT_BASE_TOPIC ++ lit "/status") (lit "online"))
  else
    log ERROR (Text (lit "Failed to correctly login to MQTT broker")) ;;
    emit Disconnect ;;
    sleep 5.

Definition run_callback (cb : callback) : M event unit :=
  match cb with
  | OnConnect rc => on_connect rc
  | OnMessage msg => on_message msg
  end.

End Callbacks.

(** ** The top-level script *)

(** The trace of the whole process says which thread made each call: the main
    thread, or the network thread paho starts in [loop_start] and on which the
    callbacks run. *)
Inductive entry :=
| Main (e : event)
| Net (e : event).

Section Script.

Variable cfg : config.
Variable E : env.

(** A callback runs to its end on the network thread; an exception it
    raises never reaches the main thread. *)
Definition deliver1 (cb : callback) : M entry unit :=
  fun s => let '(_, s', t) := run_callback E cb s in (Ret tt, s', map Net t).

Fixpoint deliver (cbs : list callback) : M entry unit :=
  match cbs with
  | [] => ret tt
  | cb :: rest => deliver1 cb ;; deliver rest
  end.

Definition count_call : M entry unit :=
  fun s => (Ret tt,
            {| execs := execs s; calls := S (calls s);
               connects := connects s; client := client s |}, []).

(** A library call made by the main thread.  The callbacks due by then come
    first; the call is made; if the interrupt signal is delivered during
    it, [KeyboardInterrupt] is raised there. *)
Definition call (e : event) : M entry unit :=
  fun s =>
    (deliver (background E (calls s)) ;;
     emit (Main e) ;;
     count_call ;;
     if sigint E (calls s) then raise KeyboardInterrupt else ret tt) s.

(** A use of the global name [client]. *)
Definition with_client {A} (m : M entry A) : M entry A :=
  fun s => if client s then m s else (Raise NameError, s, []).

Definition bind_client : M entry unit :=
  fun s => (Ret tt,
            {| execs := execs s; calls := calls s;
               connects := connects s; client := true |}, []).

Definition status_topic : pystr := MQTT_BASE_TOPIC ++ lit "/status".

(** [client.connect(MQTT_BROKER, MQTT_PORT, 60)] *)
Definition client_connect : M entry unit :=
  with_client (call (Connect (MQTT_BROKER cfg) (MQTT_PORT cfg) 60)) ;;
  fun s =>
    (match connect_fate E (connects s) with
     | Some e => Raise e
     | None => Ret tt
     end,
     {| execs := execs s; calls := calls s;
        connects := S (connects s); client := client s |}, []).

(** Lines 98-102. *)
Definition setup : M entry unit :=
  call (NewClient (lit "wol-mqtt")) ;;
  bind_client ;;
  with_client (call (WillSet status_topic (lit "offline"))) ;;
  with_client (call (UsernamePwSet (MQTT_USER cfg) (MQTT_PASSWORD cfg))).

(** [time.sleep(secs)] on the main thread, for a number of seconds that is
    not a constant of the program: a number [time.sleep] refuses raises at
    once, without sleeping. *)
Definition time_sleep (secs : Z) : M entry unit :=
  match sleep_fate E secs with
  | Some e => raise e
  | None => call (Sleep secs)
  end.

(** Lines 111-114: the inner [while(True)]. *)
Fixpoint heartbeat (fuel : nat) : M entry unit :=
  match fuel with
  | O => fun s => (Running, s, [])
  | S fuel' =>
      call (Log DEBUG (Text (lit "MQTT: publishing online Status update"))) ;;
      with_client (call (Publish status_topic (lit "online"))) ;;
      time_sleep (UPDATE_INTERVAL cfg) ;;
      heartbeat fuel'
  end.

(** Lines 104-118: the outer [while(True)]. *)
Fixpoint supervise (fuel : nat) : M entry unit :=
  match fuel with
  | O => fun s => (Running, s, [])
  | S fuel' =>
      call (Log INFO (Text (lit "MQTT: connecting to broker..."))) ;;
      try_except
        (client_connect ;;
         with_client (call LoopStart) ;;
         heartbeat fuel')
        ConnectionRefusedError
        (call (Log ERROR
                 (Format (lit "Failed to connect to broker on {ip}:{port}")
                         [(lit "ip", PStr (MQTT_BROKER cfg));
                          (lit "port", PInt (MQTT_PORT cfg))])) ;;
         call (Sleep 30)) ;;
      supervise fuel'
  end.

(** Lines 123-132. *)
Definition shutdown : M entry unit :=
  call (Log INFO (Text (lit "MQTT: Publishing offline status"))) ;;
  with_client (call (Publish status_topic (lit "offline"))) ;;
  call (Sleep 3) ;;
  call (Log INFO (Text (lit "MQTT: disconnecting"))) ;;
  with_client (call LoopStop) ;;
  with_client (call Disconnect).

(** Lines 96-132. *)
Definition script (fuel : nat) : M entry unit :=
  try_except
    (setup ;; supervise fuel)
    KeyboardInterrupt
    (call (Log INFO (Text (lit "Interrupted... shutting down")))) ;;
  shutdown.

End Script.

(** ** Reading traces *)

Definition is_exec (e : event) : bool :=
  match e with Exec _ _ => true | _ => false end.

Definition is_sleep (e : event) : bool :=
  match e with Sleep _ => true | _ => false end.

Definition is_error (e : event) : bool :=
  match e with Log ERROR _ => true | _ => false end.

Definition number_of (p : event -> bool) (t : list event) : nat :=
  List.length (filter p t).

(** Did this run of the helper confirm the packet? *)
Definition send_ok (o : run_outcome) : bool :=
  match o with
  | Returns p => str_in (lit "magic packet") (stdout p)
  | Raises _ => false
  end.

(** The argument list [send_wol] builds. *)
Definition command_line (mac ip : pyval) : list pyval :=
  if is_none ip then [PStr (lit "wakeonlan"); mac]
  else [PStr (lit "wakeonlan"); PStr (lit "-i"); ip; mac].

Definition error_line (p : CompletedProcess) : event :=
  Log ERROR (Format (lit "Error sending WoL packet: '{text}'")
                    [(lit "text", PStr (strip (stderr p)))]).

(** Python's [int] instances among the JSON values. *)
Definition is_int (v : pyval) : bool :=
  match v with PInt _ | PBool _ => true | _ => false end.

(** ** Concrete inputs *)

Definition start : state :=
  {| execs := 0; calls := 0; connects := 0; client := false |}.

Definition mac_AABB : pystr := lit "AA:BB:CC:DD:EE:FF".

(** A run of the helper that sends the packet. *)
Definition sent : CompletedProcess :=
  {| returncode := 0;
     stdout := lit "Sending magic packet to 255.255.255.255:9 with AA:BB:CC:DD:EE:FF";
     stderr := [] |}.

(** A run of the helper that rejects its argument and exits with status 1. *)
Definition rejected : CompletedProcess :=
  {| returncode := 1;
     stdout := [];
     stderr := lit "wakeonlan: invalid hardware address" ++ [10%N] |}.

(** Every run of the helper succeeds; nothing else happens. *)
Definition E_sent : env :=
  {| helper := fun _ _ => Returns sent;
     connect_fate := fun _ => None;
     sigint := fun _ => false;
     background := fun _ => [];
     sleep_fate := refuse_negative |}.

(** Every run of the helper fails. *)
Definition E_rejected : env :=
  {| helper := fun _ _ => Returns rejected;
     connect_fate := fun _ => None;
     sigint := fun _ => false;
     background := fun _ => [];
     sleep_fate := refuse_negative |}.

(** The [wakeonlan] binary is not installed. *)
Definition E_missing : env :=
  {| helper := fun _ _ => Raises FileNotFoundError;
     connect_fate := fun _ => None;
     sigint := fun _ => false;
     background := fun _ => [];
     sleep_fate := refuse_negative |}.

(** Payload text written with ['] where the payload has a double quote. *)
Definition json_text (s : string) : pystr :=
  map (fun c => if (c =? 39)%N then 34%N else c) (lit s).

(** The payload [123]: valid JSON, not an object. *)
Definition msg_number : message :=
  {| topic := lit "wol/command";
     payload_text := Returns (lit "123");
     payload_json := Returns (PInt 123) |}.

(** The payload [not valid json]. *)
Definition msg_garbage : message :=
  {| topic := lit "wol/command";
     payload_text := Returns (lit "not valid json");
     payload_json := Raises JSONDecodeError |}.

(** The payload [{'ip': '10.0.0.5', 'repeat': 3}]. *)
Definition msg_no_mac : message :=
  {| topic := lit "wol/command";
     payload_text := Returns (json_text "{'ip': '10.0.0.5', 'repeat': 3}");
     payload_json :=
       Returns (PDict [(lit "ip", PStr (lit "10.0.0.5"));
                       (lit "repeat", PInt 3)]) |}.

(** The payload [{'mac': 'AA:BB:CC:DD:EE:FF', 'repeat': '2'}]. *)
Definition msg_repeat_str : message :=
  {| topic := lit "wol/command";
     payload_text :=
       Returns (json_text "{'mac': 'AA:BB:CC:DD:EE:FF', 'repeat': '2'}");
     payload_json :=
       Returns (PDict [(lit "mac", PStr mac_AABB);
                       (lit "repeat", PStr (lit "2"))]) |}.

(** The payload [{'mac': 'AA:BB:CC:DD:EE:FF'}]. *)
Definition msg_mac_only : message :=
  {| topic := lit "wol/command";
     payload_text := Returns (json_text "{'mac': 'AA:BB:CC:DD:EE:FF'}");
     payload_json := Returns (PDict [(lit "mac", PStr mac_AABB)]) |}.

Definition debug_line (msg : message) (text : pystr) : event :=
  Log DEBUG (Text (lit "MQTT: Message " ++ topic msg ++ lit " = " ++ text)).

(** The line [wakeup] logs first. *)
Definition info_line (mac ip count : pyval) : event :=
  if is_none ip
  then Log INFO (Format (lit "Sending WoL (x{count} to {mac}")
                        [(lit "count", count); (lit "mac", mac)])
  else Log INFO (Format (lit "Sending WoL (x{count}) to {mac} via {ip}")
                        [(lit "count", count); (lit "mac", mac);
                         (lit "ip", ip)]).

(** The body of the loop in [wakeup]. *)
Definition attempt (E : env) (mac ip : pyval) (n i : Z) : M event ctl :=
  ok <- send_wol E mac ip ;;
  if negb ok then ret Break
  else
    (if (i <? n - 1)%Z then sleep 1 else ret tt) ;;
    ret Next.

(** The events of [k] rounds of the loop, the first of them being the
    [base]-th run of the helper. *)
Fixpoint attempts (E : env) (argv : list pystr) (base k : nat) : list event :=
  match k with
  | O => []
  | S k' =>
      let o := helper E base argv in
      Exec argv o ::
      match o with
      | Returns p =>
          if str_in (lit "magic packet") (stdout p)
          then match k' with
               | O => []
               | S _ => Sleep 1 :: attempts E argv (S base) k'
               end
          else [error_line p]
      | Raises _ => []
      end
  end.

(** What [range] makes of the repeat count, if anything. *)
Definition index_of (count : pyval) : option Z :=
  match count with
  | PInt z => Some z
  | PBool b => Some (Z.b2z b)
  | _ => None
  end.

(** [data[key] if key in data else default], for an object [data]. *)
Definition field (key : pystr) (d : list (pystr * pyval)) (default : pyval)
  : pyval :=
  match lookup key d with
  | Some v => v
  | None => default
  end.

Definition malformed_line (text : pystr) : event :=
  Log ERROR (Text (lit "Malformed JSON payload: '" ++ text ++ lit "'")).

(** ** Reading the trace of the whole process *)

Definition untag (x : entry) : event :=
  match x with Main e | Net e => e end.

(** The calls the main thread made, in order. *)
Definition main_events (t : list entry) : list event :=
  flat_map (fun x => match x with Main e => [e] | Net _ => [] end) t.

Definition is_offline (e : event) : bool :=
  match e with
  | Publish _ p => pystr_eqb p (lit "offline")
  | _ => false
  end.

(** How often [offline] was published, by either thread. *)
Definition offline_publishes (t : list entry) : nat :=
  number_of is_offline (map untag t).

Arguments main_events : simpl never.
Arguments offline_publishes : simpl never.


(** One round of the heartbeat loop. *)
Definition heartbeat_round (cfg : config) : list event :=
  [Log DEBUG (Text (lit "MQTT: publishing online Status update"));
   Publish status_topic (lit "online");
   Sleep (UPDATE_INTERVAL cfg)].

Fixpoint rounds (cfg : config) (n : nat) : list event :=
  match n with
  | O => []
  | S n' => heartbeat_round cfg ++ rounds cfg n'
  end.

(** A callback leaves the main thread's counters and the binding of [client]
    alone, and never publishes [offline]. *)
Definition same_thread_state (s s' : state) : Prop :=
  calls s' = calls s /\ connects s' = connects s /\ client s' = client s.

Definition tame {A} (m : M event A) : Prop :=
  forall s,
    same_thread_state s (state_of (m s)) /\
    Forall (fun e => is_offline e = false) (trace_of (m s)).

(** What one library call of the main thread does to the state: one more
    call made, the rest of the main thread's state kept. *)
Definition moved (s s1 : state) : Prop :=
  calls s1 = S (calls s) /\ connects s1 = connects s /\ client s1 = client s.

(** A run seen through its result, its last state and the number of
    [offline] publishes in its trace. *)
Definition sees (P : result unit -> state -> nat -> Prop)
           (o : result unit * state * list entry) : Prop :=
  P (result_of o) (state_of o) (offline_publishes (trace_of o)).




Definition is_connect (e : event) : bool :=
  match e with Connect _ _ _ => true | _ => false end.

(** The defaults of the source. *)
Definition cfg_default : config :=
  {| UPDATE_INTERVAL := 60;
     MQTT_BROKER := lit "mqtt.local";
     MQTT_PORT := 1883;
     MQTT_USER := lit "mqtt";
     MQTT_PASSWORD := lit "password" |}.

(** The TCP connection is made, and the broker then refuses the login: the
    network thread runs [on_connect] with result code 5 during the first
    sleep of the heartbeat loop, that is before the main thread's call
    number 9 (calls 0-2 set the client up, 3-5 are the log line, [connect]
    and [loop_start], 6-8 the first round of the loop). *)
Definition E_login_refused : env :=
  {| helper := fun _ _ => Returns sent;
     connect_fate := fun _ => None;
     sigint := fun _ => false;
     background := fun n => if Nat.eqb n 9 then [OnConnect 5] else [];
     sleep_fate := refuse_negative |}.


(** Heartbeat publishes made while the session is down.  The session is up
    from a [connect] call of the main thread to the next [disconnect] by
    either thread. *)
Fixpoint heartbeats_while_disconnected (up : bool) (t : list entry) : nat :=
  match t with
  | [] => 0
  | Main (Connect _ _ _) :: rest => heartbeats_while_disconnected true rest
  | Main Disconnect :: rest | Net Disconnect :: rest =>
      heartbeats_while_disconnected false rest
  | Main (Publish _ _) :: rest =>
      (if up then 0 else 1) + heartbeats_while_disconnected up rest
  | _ :: rest => heartbeats_while_disconnected up rest
  end.

(** The main thread's calls up to the heartbeat loop. *)
Definition prologue (cfg : config) : list event :=
  [NewClient (lit "wol-mqtt");
   WillSet status_topic (lit "offline");
   UsernamePwSet (MQTT_USER cfg) (MQTT_PASSWORD cfg)].

Definition connecting (cfg : config) : list event :=
  [Log INFO (Text (lit "MQTT: connecting to broker..."));
   Connect (MQTT_BROKER cfg) (MQTT_PORT cfg) 60;
   LoopStart].

(** Calls of [client.connect] made after the first [disconnect]. *)
Fixpoint connects_after_disconnect (t : list entry) : nat :=
  match t with
  | [] => 0
  | Main Disconnect :: rest | Net Disconnect :: rest =>
      number_of is_connect (main_events rest)
  | _ :: rest => connects_after_disconnect rest
  end.

(** ** More to read traces with *)

(** [key in data] for a JSON array or string. *)
Definition mentions (key : pystr) (v : pyval) : bool :=
  match v with
  | PList l => existsb (is_str key) l
  | PStr t => str_in key t
  | _ => false
  end.

(** JSON [null], booleans and numbers. *)
Definition is_scalar (v : pyval) : bool :=
  match v with
  | PNone | PBool _ | PInt _ | PFloat _ => true
  | _ => false
  end.

(** JSON arrays and strings. *)
Definition is_sequence (v : pyval) : bool :=
  match v with
  | PList _ | PStr _ => true
  | _ => false
  end.

Definition no_mac_line (text : pystr) : event :=
  Log ERROR (Text (lit "No 'mac' provided in payload: '" ++ text ++ lit "'")).

(** Events that stay on the host: logging, running the helper, sleeping. *)
Definition is_local (e : event) : bool :=
  match e with
  | Log _ _ | Exec _ _ | Sleep _ => true
  | _ => false
  end.

(** A computation all of whose events satisfy [P]. *)
Definition only (P : event -> bool) {A} (m : M event A) : Prop :=
  forall s, forallb P (trace_of (m s)) = true.

(** The payload [b'\xff']: not UTF-8, and not JSON either. *)
Definition msg_not_utf8 : message :=
  {| topic := lit "wol/command";
     payload_text := Raises UnicodeDecodeError;
     payload_json := Raises UnicodeDecodeError |}.

(** The payload [['ip', 1]]. *)
Definition msg_array : message :=
  {| topic := lit "wol/command";
     payload_text := Returns (json_text "['ip', 1]");
     payload_json := Returns (PList [PStr (lit "ip"); PInt 1]) |}.

(** The payload [{'mac': 'AA:BB:CC:DD:EE:FF', 'ip': '10.0.0.5', 'repeat': 1}]. *)
Definition msg_directed : message :=
  {| topic := lit "wol/command";
     payload_text :=
       Returns (json_text
         "{'mac': 'AA:BB:CC:DD:EE:FF', 'ip': '10.0.0.5', 'repeat': 1}");
     payload_json :=
       Returns (PDict [(lit "mac", PStr mac_AABB);
                       (lit "ip", PStr (lit "10.0.0.5"));
                       (lit "repeat", PInt 1)]) |}.



(** ** Outcomes, composed *)

(** An outcome with the events [t] put before its own. *)
Definition after {A} (t : list entry) (o : result A * state * list entry)
  : result A * state * list entry :=
  let '(r, s, t') := o in (r, s, t ++ t').

(** What [bind] and [try_except] make of the outcome of their first part. *)
Definition and_then {A B} (f : A -> M entry B)
           (o : result A * state * list entry)
  : result B * state * list entry :=
  match o with
  | (Ret a, s1, t1) => after t1 (f a s1)
  | (Raise e, s1, t1) => (Raise e, s1, t1)
  | (Running, s1, t1) => (Running, s1, t1)
  end.

Definition catching {A} (exc : exn) (handler : M entry A)
           (o : result A * state * list entry)
  : result A * state * list entry :=
  match o with
  | (Raise e, s1, t1) =>
      if exn_eqb e exc then after t1 (handler s1) else (Raise e, s1, t1)
  | other => other
  end.




(** The interrupt signal arrives while [mqtt.Client] is being built. *)
Definition E_interrupted_at_once : env :=
  {| helper := fun _ _ => Returns sent;
     connect_fate := fun _ => None;
     sigint := fun n => Nat.eqb n 0;
     background := fun _ => [];
     sleep_fate := refuse_negative |}.

(** A computation of the main thread in whose trace [offline] is published
    at most [n] times, wherever it starts. *)
Definition at_most (n : nat) {A} (m : M entry A) : Prop :=
  forall s, offline_publishes (trace_of (m s)) <= n.

(** The payload [{'ip': '10.0.0.5'}] encoded as UTF-16 with a byte order
    mark: [json.loads] detects the encoding and returns the object, while
    [str(msg.payload, "UTF-8")] refuses the first byte. *)
Definition msg_utf16_object : message :=
  {| topic := lit "wol/command";
     payload_text := Raises UnicodeDecodeError;
     payload_json := Returns (PDict [(lit "ip", PStr (lit "10.0.0.5"))]) |}.


(** * Theorems *)

(** ** Facts about strings *)

Lemma startswith_spec (s p : pystr) :
  startswith s p = true <-> exists post, s = p ++ post.
Proof.
  revert s; induction p as [|a p IH]; intros s; simpl.
  - split; [intros _; now exists s | reflexivity].
  - destruct s as [|b s].
    + split; [discriminate | intros [post H]; discriminate].
    + rewrite andb_true_iff, N.eqb_eq, IH. split.
      * intros [-> [post ->]]. now exists post.
      * intros [post H]. injection H as -> ->. split; [reflexivity | now exists post].
Qed.

(** [str_in] is the substring relation. *)
Lemma str_in_spec (needle hay : pystr) :
  str_in needle hay = true <-> exists pre post, hay = pre ++ needle ++ post.
Proof.
  induction hay as [|c hay IH]; simpl; rewrite orb_true_iff, startswith_spec.
  - split.
    + intros [[post H] | H]; [|discriminate]. exists [], post. exact H.
    + intros [pre [post H]]. left. destruct pre; [now exists post | discriminate].
  - rewrite IH. split.
    + intros [[post H] | [pre [post H]]].
      * exists [], post. exact H.
      * exists (c :: pre), post. simpl. now rewrite H.
    + intros [pre [post H]]. destruct pre as [|c' pre]; simpl in H.
      * left. now exists post.
      * right. injection H as _ H. now exists pre, post.
Qed.

Lemma number_of_app p (a b : list event) :
  number_of p (a ++ b) = number_of p a + number_of p b.
Proof. unfold number_of. now rewrite filter_app, length_app. Qed.

(** ** [send_wol] *)

Section SendWol.

Variable E : env.

Lemma send_wol_run mac ip s :
  send_wol E mac ip s =
  match as_strs (command_line mac ip) with
  | None => (Raise TypeError, s, [])
  | Some argv =>
      let o := helper E (execs s) argv in
      let s' := {| execs := S (execs s); calls := calls s;
                   connects := connects s; client := client s |} in
      match o with
      | Returns p =>
          if str_in (lit "magic packet") (stdout p)
          then (Ret true, s', [Exec argv o])
          else (Ret false, s', [Exec argv o; error_line p])
      | Raises e => (Raise e, s', [Exec argv o])
      end
  end.
Proof.
  unfold send_wol, command_line, subprocess_run, error_line, bind.
  destruct (is_none ip).
  - destruct (as_strs _) as [argv|]; [|reflexivity].
    destruct (helper E (execs s) argv) as [p|e]; [|reflexivity].
    destruct (str_in _ (stdout p)); reflexivity.
  - destruct (as_strs _) as [argv|]; [|reflexivity].
    destruct (helper E (execs s) argv) as [p|e]; [|reflexivity].
    destruct (str_in _ (stdout p)); reflexivity.
Qed.

End SendWol.

(** C1 (as amended).  When the helper could be run, [send_wol] returns
    [True] exactly when the captured standard output contains
    "magic packet", whatever the exit status; otherwise it returns [False]
    and logs one error line carrying the stripped standard-error text.  When
    running the helper raises, the exception leaves [send_wol] and no error
    line is logged. *)
Theorem send_wol_success_iff_confirmation E mac ip argv s :
  as_strs (command_line mac ip) = Some argv ->
  let o := send_wol E mac ip s in
  (forall p,
     helper E (execs s) argv = Returns p ->
     (result_of o = Ret true <->
      exists pre post, stdout p = pre ++ lit "magic packet" ++ post) /\
     (result_of o = Ret true -> trace_of o = [Exec argv (Returns p)]) /\
     (result_of o <> Ret true ->
      result_of o = Ret false /\
      trace_of o = [Exec argv (Returns p); error_line p] /\
      number_of is_error (trace_of o) = 1)) /\
  (forall e,
     helper E (execs s) argv = Raises e ->
     result_of o = Raise e /\ number_of is_error (trace_of o) = 0).
Proof.
  intros Hargs o. subst o. rewrite send_wol_run, Hargs. cbv zeta. split.
  - intros p Hrun. rewrite Hrun, <- str_in_spec.
    destruct (str_in (lit "magic packet") (stdout p)); cbn.
    + split; [tauto|]. split; [reflexivity|]. intros Hne. now elim Hne.
    + split; [split; discriminate|]. split; [discriminate|]. intros _.
      repeat split.
  - intros e Hrun. rewrite Hrun. split; reflexivity.
Qed.

Lemma send_wol_success_iff_confirmation_witness :
  result_of (send_wol E_rejected (PStr mac_AABB) PNone start) = Ret false /\
  trace_of (send_wol E_rejected (PStr mac_AABB) PNone start) =
    [Exec [lit "wakeonlan"; mac_AABB] (Returns rejected);
     Log ERROR (Format (lit "Error sending WoL packet: '{text}'")
                  [(lit "text",
                    PStr (lit "wakeonlan: invalid hardware address"))])].
Proof.
  destruct (proj1 (@send_wol_success_iff_confirmation E_rejected
                     (PStr mac_AABB) PNone [lit "wakeonlan"; mac_AABB] start
                     eq_refl) rejected eq_refl) as [_ [_ Hfail]].
  assert (Hne : result_of (send_wol E_rejected (PStr mac_AABB) PNone start)
                <> Ret true) by (vm_compute; discriminate).
  destruct (Hfail Hne) as [H1 [H2 _]].
  split; [exact H1 | exact H2].
Defined.

(** C1 fails where the helper binary is missing: [subprocess.run] raises
    [FileNotFoundError], which [send_wol] does not catch, so nothing is
    returned and no error line is logged. *)
Lemma send_wol_missing_helper_raises :
  let o := send_wol E_missing (PStr mac_AABB) PNone start in
  result_of o = Raise FileNotFoundError /\
  result_of o <> Ret false /\
  number_of is_error (trace_of o) = 0.
Proof. cbn. repeat split. discriminate. Qed.

(** ** [on_message] *)

Ltac run_handler :=
  unfold on_message, try_except, bind, of_lib, contains, getitem, log, emit,
    ret, raise, debug_line.

(** C2 (as amended).  A payload that is UTF-8 text and that [json.loads]
    rejects with [JSONDecodeError] is dropped: the handler logs the raw
    payload at error severity, runs no helper and returns normally. *)
Theorem on_message_malformed_json E msg text s :
  payload_text msg = Returns text ->
  payload_json msg = Raises JSONDecodeError ->
  on_message E msg s =
    (Ret tt, s,
     [debug_line msg text;
      Log ERROR (Text (lit "Malformed JSON payload: '" ++ text ++ lit "'"))]).
Proof.
  intros Htext Hjson. run_handler. rewrite Htext, Hjson. reflexivity.
Qed.

Lemma on_message_malformed_json_witness :
  on_message E_sent msg_garbage start =
    (Ret tt, start,
     [debug_line msg_garbage (lit "not valid json");
      Log ERROR (Text (lit "Malformed JSON payload: 'not valid json'"))]).
Proof.
  exact (@on_message_malformed_json E_sent msg_garbage (lit "not valid json")
           start eq_refl eq_refl).
Defined.

(** C2 fails on the payload [123]: it is not an object, [json.loads] accepts
    it, and ['ip' in data] raises a [TypeError] that leaves the handler; no
    error line is logged. *)
Lemma on_message_number_payload_raises :
  let o := on_message E_sent msg_number start in
  result_of o = Raise TypeError /\
  number_of is_error (trace_of o) = 0.
Proof. vm_compute. split; reflexivity. Qed.

(** C4 (as amended).  A payload that is UTF-8 text and parses as an object
    without a ['mac'] key is rejected: the handler logs the raw payload at
    error severity and returns normally; [wakeup] is not entered and no
    helper is run. *)
Theorem on_message_without_mac E msg text d s :
  payload_text msg = Returns text ->
  payload_json msg = Returns (PDict d) ->
  lookup (lit "mac") d = None ->
  on_message E msg s =
    (Ret tt, s,
     [debug_line msg text;
      Log ERROR (Text (lit "No 'mac' provided in payload: '" ++ text
                       ++ lit "'"))]) /\
  number_of is_exec (trace_of (on_message E msg s)) = 0.
Proof.
  intros Htext Hjson Hmac.
  assert (Hrun : on_message E msg s =
    (Ret tt, s,
     [debug_line msg text;
      Log ERROR (Text (lit "No 'mac' provided in payload: '" ++ text
                       ++ lit "'"))])).
  { run_handler. rewrite Htext, Hjson, Hmac.
    destruct (lookup (lit "ip") d); destruct (lookup (lit "repeat") d);
      reflexivity. }
  split; [exact Hrun | now rewrite Hrun].
Qed.

Lemma on_message_without_mac_witness :
  result_of (on_message E_sent msg_no_mac start) = Ret tt /\
  number_of is_exec (trace_of (on_message E_sent msg_no_mac start)) = 0.
Proof.
  destruct (@on_message_without_mac E_sent msg_no_mac
              (json_text "{'ip': '10.0.0.5', 'repeat': 3}")
              [(lit "ip", PStr (lit "10.0.0.5")); (lit "repeat", PInt 3)]
              start eq_refl eq_refl eq_refl) as [Hrun Hcount].
  split; [now rewrite Hrun | exact Hcount].
Defined.

(** C4 fails on an object that is not UTF-8 text: the payload parses as an
    object without ['mac'], yet the debug line, which stands before the
    [try], raises [UnicodeDecodeError]; the handler raises and logs
    nothing. *)
Lemma on_message_utf16_object_raises :
  let o := on_message E_sent msg_utf16_object start in
  result_of o = Raise UnicodeDecodeError /\
  number_of is_error (trace_of o) = 0.
Proof. vm_compute. split; reflexivity. Qed.

(** C10.  The handler catches [JSONDecodeError] only.  For an object payload
    with a ['mac'] whose ['repeat'] is present and is not a Python [int],
    [range(count)] in [wakeup] raises a [TypeError] that leaves the handler:
    it is not caught, not logged as an error, and no helper is run. *)
Theorem on_message_repeat_must_be_int E msg text d mac repeat s :
  payload_text msg = Returns text ->
  payload_json msg = Returns (PDict d) ->
  lookup (lit "mac") d = Some mac ->
  lookup (lit "repeat") d = Some repeat ->
  is_int repeat = false ->
  let o := on_message E msg s in
  result_of o = Raise TypeError /\
  number_of is_error (trace_of o) = 0 /\
  number_of is_exec (trace_of o) = 0.
Proof.
  intros Htext Hjson Hmac Hrep Hint o. subst o.
  run_handler. unfold wakeup, bind, log, emit, as_index.
  rewrite Htext, Hjson, Hmac, Hrep.
  destruct (lookup (lit "ip") d) as [ip|];
    [destruct (is_none ip)|];
    destruct repeat; try discriminate Hint; cbn; repeat split.
Qed.

Lemma on_message_repeat_must_be_int_witness :
  result_of (on_message E_sent msg_repeat_str start) = Raise TypeError.
Proof.
  exact (proj1 (@on_message_repeat_must_be_int E_sent msg_repeat_str
           (json_text "{'mac': 'AA:BB:CC:DD:EE:FF', 'repeat': '2'}")
           [(lit "mac", PStr mac_AABB); (lit "repeat", PStr (lit "2"))]
           (PStr mac_AABB) (PStr (lit "2")) start
           eq_refl eq_refl eq_refl eq_refl eq_refl)).
Defined.

(** ** [on_connect] *)

(** C8.  On a zero result code the callback subscribes to [wol/command] and
    then publishes [online] to [wol/status], each exactly once and in that
    order. *)
Theorem on_connect_success_subscribes_then_publishes s :
  on_connect 0 s =
    (Ret tt, s,
     [Log INFO (Text (lit "MQTT: connected to broker with result code 0"));
      Subscribe (lit "wol/command");
      Publish (lit "wol/status") (lit "online")]).
Proof. reflexivity. Qed.

(** ** [wakeup] *)

Section Wakeup.

Variable E : env.

Lemma wakeup_unfold mac ip count :
  wakeup E mac ip count =
  (emit (info_line mac ip count) ;;
   n <- as_index count ;;
   for_in (range n) (attempt E mac ip n)).
Proof. unfold wakeup, info_line, log. now destruct (is_none ip). Qed.

Lemma loop_trace mac ip argv n :
  as_strs (command_line mac ip) = Some argv ->
  forall k a s,
    k = 0 \/ Z.of_nat (a + k) = n ->
    trace_of (for_in (map Z.of_nat (seq a k)) (attempt E mac ip n) s)
    = attempts E argv (execs s) k.
Proof.
  intros Hargs. induction k as [|k IH]; intros a s Hn; [reflexivity|].
  destruct Hn as [Hn|Hn]; [discriminate|].
  cbn [seq map for_in attempts]. unfold bind at 1. unfold attempt at 1.
  unfold bind at 1. rewrite send_wol_run, Hargs. cbv zeta.
  destruct (helper E (execs s) argv) as [p|e]; [|reflexivity].
  destruct (str_in (lit "magic packet") (stdout p)); [|reflexivity].
  cbn [negb]. unfold bind at 1.
  destruct k as [|k].
  - replace (Z.of_nat a <? n - 1)%Z with false
      by (symmetry; apply Z.ltb_ge; lia).
    reflexivity.
  - replace (Z.of_nat a <? n - 1)%Z with true
      by (symmetry; apply Z.ltb_lt; lia).
    unfold sleep, emit, ret. cbn iota beta.
    specialize (IH (S a)
      {| execs := S (execs s); calls := calls s;
         connects := connects s; client := client s |}).
    unfold trace_of in IH.
    destruct (for_in _ _ _) as [[r s'] t]. cbn in IH |- *.
    rewrite IH; [reflexivity | right; lia].
Qed.

Lemma wakeup_trace mac ip count s :
  trace_of (wakeup E mac ip count s) =
  info_line mac ip count ::
  match index_of count, as_strs (command_line mac ip) with
  | Some n, Some argv => attempts E argv (execs s) (Z.to_nat n)
  | _, _ => []
  end.
Proof.
  rewrite wakeup_unfold. unfold bind at 1. unfold emit at 1.
  assert (Hloop : forall n,
    trace_of (for_in (range n) (attempt E mac ip n) s) =
    match as_strs (command_line mac ip) with
    | Some argv => attempts E argv (execs s) (Z.to_nat n)
    | None => []
    end).
  { intros n. destruct (as_strs (command_line mac ip)) as [argv|] eqn:Hargs.
    - unfold range. apply loop_trace; [exact Hargs|].
      destruct (Z.to_nat n) eqn:Hk; [now left | right; lia].
    - unfold range. destruct (Z.to_nat n) as [|k]; [reflexivity|].
      cbn [seq map for_in]. unfold bind at 1. unfold attempt at 1.
      unfold bind at 1. now rewrite send_wol_run, Hargs. }
  unfold bind, as_index, index_of, ret, raise.
  destruct count as [|b|z|f|t|l|d]; try reflexivity.
  - specialize (Hloop (Z.b2z b)). unfold trace_of in Hloop.
    destruct (for_in _ _ s) as [[r s'] t]. cbn in Hloop |- *. now rewrite Hloop.
  - specialize (Hloop z). unfold trace_of in Hloop.
    destruct (for_in _ _ s) as [[r s'] t]. cbn in Hloop |- *. now rewrite Hloop.
Qed.

Lemma wakeup_nothing_to_do mac ip n s :
  (n <= 0)%Z ->
  wakeup E mac ip (PInt n) s = (Ret tt, s, [info_line mac ip (PInt n)]).
Proof.
  intros Hn. rewrite wakeup_unfold. unfold bind, emit, as_index, ret, range.
  replace (Z.to_nat n) with 0 by lia. reflexivity.
Qed.

(** *** The shape of the loop's trace *)

Variable argv : list pystr.

Lemma attempts_sends_at_most k : forall base,
  number_of is_exec (attempts E argv base k) <= k.
Proof.
  induction k as [|k IH]; intros base; [apply Nat.le_refl|].
  cbn [attempts]. cbv zeta.
  destruct (helper E base argv) as [p|e]; [|cbn; lia].
  destruct (str_in _ (stdout p)); [|cbn; lia].
  destruct k as [|k]; [cbn; lia|].
  specialize (IH (S base)). cbn in IH |- *. lia.
Qed.

Lemma attempts_fewer_iff_earlier_failure k : forall base,
  number_of is_exec (attempts E argv base k) < k <->
  exists j, j + 1 < k /\ send_ok (helper E (base + j) argv) = false.
Proof.
  induction k as [|k IH]; intros base.
  - split; [cbn; lia | intros [j [Hj _]]; lia].
  - cbn [attempts]. cbv zeta.
    destruct (helper E base argv) as [p|e] eqn:Hrun.
    + destruct (str_in (lit "magic packet") (stdout p)) eqn:Hok.
      * destruct k as [|k].
        -- split; [cbn; lia | intros [j [Hj _]]; lia].
        -- specialize (IH (S base)).
           change (number_of is_exec (Exec argv (Returns p) :: Sleep 1 ::
                     attempts E argv (S base) (S k)))
             with (S (number_of is_exec (attempts E argv (S base) (S k)))).
           rewrite <- Nat.succ_lt_mono, IH. split.
           ++ intros [j [Hj Hfail]]. exists (S j). split; [lia|].
              now rewrite Nat.add_succ_r.
           ++ intros [j [Hj Hfail]]. destruct j as [|j].
              ** rewrite Nat.add_0_r, Hrun in Hfail. unfold send_ok in Hfail.
                 congruence.
              ** exists j. split; [lia|]. now rewrite Nat.add_succ_r in Hfail.
      * split.
        -- intros Hlt. cbn in Hlt. exists 0. split; [lia|].
           rewrite Nat.add_0_r, Hrun. exact Hok.
        -- intros [j [Hj _]]. cbn. lia.
    + split.
      * intros Hlt. cbn in Hlt. exists 0. split; [lia|].
        now rewrite Nat.add_0_r, Hrun.
      * intros [j [Hj _]]. cbn. lia.
Qed.

Lemma attempts_all_confirmed k : forall base,
  (forall j, j < k -> send_ok (helper E (base + j) argv) = true) ->
  number_of is_exec (attempts E argv base k) = k /\
  number_of is_sleep (attempts E argv base k) = k - 1.
Proof.
  induction k as [|k IH]; intros base Hall; [split; reflexivity|].
  cbn [attempts]. cbv zeta.
  pose proof (Hall 0 (Nat.lt_0_succ k)) as H0. rewrite Nat.add_0_r in H0.
  destruct (helper E base argv) as [p|e]; [|discriminate].
  unfold send_ok in H0. rewrite H0.
  destruct k as [|k]; [split; reflexivity|].
  destruct (IH (S base)) as [He Hs].
  { intros j Hj. specialize (Hall (S j)). rewrite Nat.add_succ_r in Hall.
    apply Hall. lia. }
  split.
  - change (S (number_of is_exec (attempts E argv (S base) (S k))) = S (S k)).
    now rewrite He.
  - change (S (number_of is_sleep (attempts E argv (S base) (S k))) = S (S k) - 1).
    rewrite Hs. lia.
Qed.

Lemma attempts_pause_between k : forall base pre z post,
  attempts E argv base k = pre ++ Sleep z :: post ->
  z = 1%Z /\
  (exists pre' a o, pre = pre' ++ [Exec a o] /\ send_ok o = true) /\
  (exists a o post', post = Exec a o :: post').
Proof.
  induction k as [|k IH]; intros base pre z post Heq.
  - destruct pre; discriminate.
  - cbn [attempts] in Heq. cbv zeta in Heq.
    destruct pre as [|e1 pre]; [discriminate|].
    injection Heq as He1 Heq.
    destruct (helper E base argv) as [p|e] eqn:Hrun;
      [|destruct pre; discriminate].
    destruct (str_in (lit "magic packet") (stdout p)) eqn:Hok;
      [|destruct pre as [|? [|? ?]]; discriminate].
    destruct k as [|k]; [destruct pre; discriminate|].
    destruct pre as [|e2 pre].
    + injection Heq as Hz Hpost. split; [congruence|]. split.
      * exists [], argv, (Returns p). split; [now rewrite <- He1|exact Hok].
      * rewrite <- Hpost. cbn [attempts]. eauto.
    + injection Heq as He2 Heq.
      destruct (IH _ _ _ _ Heq) as [Hz [[pre' [a [o [Hpre Hgood]]]] Hnext]].
      split; [exact Hz|]. split; [|exact Hnext].
      exists (e1 :: e2 :: pre'), a, o. split; [now rewrite Hpre | exact Hgood].
Qed.

Lemma attempts_stop_after_failure k : forall base pre a o post,
  attempts E argv base k = pre ++ Exec a o :: post ->
  send_ok o = false ->
  number_of is_exec post = 0 /\ number_of is_sleep post = 0.
Proof.
  induction k as [|k IH]; intros base pre a o post Heq Hfail.
  - destruct pre; discriminate.
  - cbn [attempts] in Heq. cbv zeta in Heq.
    destruct pre as [|e1 pre].
    + injection Heq as _ Ho Hpost. subst o.
      destruct (helper E base argv) as [p|e]; [|now subst post].
      unfold send_ok in Hfail. rewrite Hfail in Hpost. now subst post.
    + injection Heq as _ Heq.
      destruct (helper E base argv) as [p|e]; [|destruct pre; discriminate].
      destruct (str_in (lit "magic packet") (stdout p));
        [|destruct pre as [|? [|? ?]]; discriminate].
      destruct k as [|k]; [destruct pre; discriminate|].
      destruct pre as [|e2 pre]; [discriminate|].
      injection Heq as _ Heq. exact (IH _ _ _ _ _ Heq Hfail).
Qed.

End Wakeup.

(** For an object with a ['mac'], the handler is a call of [wakeup] inside
    the [try]. *)
Lemma on_message_wake_request E msg text d mac s :
  payload_text msg = Returns text ->
  payload_json msg = Returns (PDict d) ->
  lookup (lit "mac") d = Some mac ->
  on_message E msg s =
  (emit (debug_line msg text) ;;
   try_except
     (wakeup E mac (field (lit "ip") d PNone) (field (lit "repeat") d (PInt 2)))
     JSONDecodeError
     (emit (malformed_line text))) s.
Proof.
  intros Htext Hjson Hmac. unfold field, malformed_line.
  run_handler. rewrite Htext, Hjson, Hmac.
  destruct (lookup (lit "ip") d) as [ip|];
    destruct (lookup (lit "repeat") d) as [repeat|]; cbv beta iota;
    match goal with
    | |- context [wakeup E mac ?i ?c s] =>
        destruct (wakeup E mac i c s) as [[[u|e|] s'] t]
    end; try reflexivity;
    destruct (exn_eqb e JSONDecodeError); cbn; now rewrite ?app_nil_r.
Qed.

Lemma wake_request_trace E msg text d mac s :
  payload_text msg = Returns text ->
  payload_json msg = Returns (PDict d) ->
  lookup (lit "mac") d = Some mac ->
  exists tail,
    trace_of (on_message E msg s) =
      debug_line msg text ::
      trace_of (wakeup E mac (field (lit "ip") d PNone)
                  (field (lit "repeat") d (PInt 2)) s) ++ tail /\
    number_of is_exec tail = 0.
Proof.
  intros Htext Hjson Hmac.
  rewrite (on_message_wake_request E msg s Htext Hjson Hmac).
  unfold bind, emit, try_except, malformed_line.
  destruct (wakeup E mac _ _ s) as [[[u|e|] s'] t]; cbn.
  - exists []. now rewrite app_nil_r.
  - destruct (exn_eqb e JSONDecodeError); cbn.
    + eexists. split; reflexivity.
    + exists []. now rewrite app_nil_r.
  - exists []. now rewrite app_nil_r.
Qed.

(** C3.  With ['repeat'] absent the handler calls [wakeup] with count 2.
    A count of 0 or less runs no helper and returns normally.  For a count
    [n > 0], a string MAC and an absent or string IP, at most [n] sends
    occur, and fewer than [n] occur exactly when one of the first [n - 1]
    sends fails; nothing is sent after a failed send. *)
Theorem wakeup_send_count E :
  (forall msg text d mac s,
     payload_text msg = Returns text ->
     payload_json msg = Returns (PDict d) ->
     lookup (lit "mac") d = Some mac ->
     lookup (lit "repeat") d = None ->
     exists tail,
       trace_of (on_message E msg s) =
         debug_line msg text ::
         trace_of (wakeup E mac (field (lit "ip") d PNone) (PInt 2) s)
         ++ tail /\
       number_of is_exec tail = 0) /\
  (forall mac ip n s,
     (n <= 0)%Z ->
     wakeup E mac ip (PInt n) s = (Ret tt, s, [info_line mac ip (PInt n)])) /\
  (forall mac ip argv n s,
     (0 < n)%Z ->
     as_strs (command_line mac ip) = Some argv ->
     let t := trace_of (wakeup E mac ip (PInt n) s) in
     number_of is_exec t <= Z.to_nat n /\
     (number_of is_exec t < Z.to_nat n <->
      exists j, j + 1 < Z.to_nat n /\
                send_ok (helper E (execs s + j) argv) = false) /\
     (forall pre a o post,
        t = pre ++ Exec a o :: post -> send_ok o = false ->
        number_of is_exec post = 0)).
Proof.
  split; [|split].
  - intros msg text d mac s Htext Hjson Hmac Hrep.
    destruct (wake_request_trace E msg s Htext Hjson Hmac) as [tail H].
    unfold field at 2 in H. rewrite Hrep in H. now exists tail.
  - intros mac ip n s Hn. now apply wakeup_nothing_to_do.
  - intros mac ip argv n s Hn Hargs t. subst t.
    rewrite wakeup_trace, Hargs. cbn [index_of].
    assert (Hinfo : is_exec (info_line mac ip (PInt n)) = false)
      by (unfold info_line; now destruct (is_none ip)).
    assert (Hcount : forall l,
      number_of is_exec (info_line mac ip (PInt n) :: l) = number_of is_exec l)
      by (intros l; unfold number_of; cbn [filter]; now rewrite Hinfo).
    rewrite Hcount. split; [apply attempts_sends_at_most|]. split.
    + apply attempts_fewer_iff_earlier_failure.
    + intros pre a o post Heq Hfail. destruct pre as [|e pre].
      * injection Heq as Heq _. rewrite Heq in Hinfo. discriminate.
      * injection Heq as _ Heq.
        exact (proj1 (@attempts_stop_after_failure E argv _ _ _ _ _ _ Heq Hfail)).
Qed.

Lemma wakeup_send_count_witness :
  number_of is_exec
    (trace_of (wakeup E_sent (PStr mac_AABB) PNone (PInt 2) start)) <= 2 /\
  wakeup E_sent (PStr mac_AABB) PNone (PInt 0) start =
    (Ret tt, start, [info_line (PStr mac_AABB) PNone (PInt 0)]) /\
  exists tail,
    trace_of (on_message E_sent msg_mac_only start) =
      debug_line msg_mac_only (json_text "{'mac': 'AA:BB:CC:DD:EE:FF'}") ::
      trace_of (wakeup E_sent (PStr mac_AABB) PNone (PInt 2) start) ++ tail /\
    number_of is_exec tail = 0.
Proof.
  destruct (wakeup_send_count E_sent) as [Habsent [Hzero Hmany]].
  split; [|split].
  - exact (proj1 (Hmany (PStr mac_AABB) PNone [lit "wakeonlan"; mac_AABB]
                    2%Z start eq_refl eq_refl)).
  - apply Hzero. discriminate.
  - exact (Habsent msg_mac_only _ [(lit "mac", PStr mac_AABB)] (PStr mac_AABB)
             start eq_refl eq_refl eq_refl eq_refl).
Defined.

(** C5.  In every run of [wakeup] a pause is the one-second sleep that
    directly follows a confirmed send and directly precedes the next send, so
    none follows the last attempt; after a failed send there is no pause at
    all; and [n > 0] sends that all succeed come with exactly [n - 1]
    pauses. *)
Theorem wakeup_pauses_between_attempts E mac ip count s :
  let t := trace_of (wakeup E mac ip count s) in
  (forall pre z post,
     t = pre ++ Sleep z :: post ->
     z = 1%Z /\
     (exists pre' a o, pre = pre' ++ [Exec a o] /\ send_ok o = true) /\
     (exists a o post', post = Exec a o :: post')) /\
  (forall pre a o post,
     t = pre ++ Exec a o :: post -> send_ok o = false ->
     number_of is_sleep post = 0) /\
  (forall n argv,
     count = PInt n -> (0 < n)%Z ->
     as_strs (command_line mac ip) = Some argv ->
     (forall j, j < Z.to_nat n ->
                send_ok (helper E (execs s + j) argv) = true) ->
     number_of is_exec t = Z.to_nat n /\
     number_of is_sleep t = Z.to_nat n - 1).
Proof.
  intros t. subst t. rewrite wakeup_trace.
  assert (Hinfo : is_exec (info_line mac ip count) = false /\
                  is_sleep (info_line mac ip count) = false)
    by (unfold info_line; now destruct (is_none ip)).
  destruct Hinfo as [Hexec Hsleep].
  split; [|split].
  - intros pre z post Heq. destruct pre as [|e pre].
    + injection Heq as Heq _. rewrite Heq in Hsleep. discriminate.
    + injection Heq as He Heq.
      destruct (index_of count) as [n|]; [|destruct pre; discriminate].
      destruct (as_strs (command_line mac ip)) as [argv|];
        [|destruct pre; discriminate].
      destruct (@attempts_pause_between E argv _ _ _ _ _ Heq)
        as [Hz [[pre' [a [o [Hpre Hgood]]]] Hnext]].
      split; [exact Hz|]. split; [|exact Hnext].
      exists (e :: pre'), a, o. split; [now rewrite Hpre | exact Hgood].
  - intros pre a o post Heq Hfail. destruct pre as [|e pre].
    + injection Heq as Heq _. rewrite Heq in Hexec. discriminate.
    + injection Heq as _ Heq.
      destruct (index_of count) as [n|]; [|destruct pre; discriminate].
      destruct (as_strs (command_line mac ip)) as [argv|];
        [|destruct pre; discriminate].
      exact (proj2 (@attempts_stop_after_failure E argv _ _ _ _ _ _ Heq Hfail)).
  - intros n argv Hcount Hn Hargs Hall. subst count.
    rewrite Hargs. cbn [index_of].
    destruct (@attempts_all_confirmed E argv (Z.to_nat n) (execs s) Hall)
      as [He Hs].
    unfold number_of in *. cbn [filter]. rewrite Hexec, Hsleep.
    split; assumption.
Qed.

Lemma wakeup_pauses_between_attempts_witness :
  number_of is_exec
    (trace_of (wakeup E_sent (PStr mac_AABB) PNone (PInt 3) start)) = 3 /\
  number_of is_sleep
    (trace_of (wakeup E_sent (PStr mac_AABB) PNone (PInt 3) start)) = 2.
Proof.
  refine (proj2 (proj2 (@wakeup_pauses_between_attempts E_sent (PStr mac_AABB)
            PNone (PInt 3) start)) 3%Z [lit "wakeonlan"; mac_AABB]
            eq_refl eq_refl eq_refl _).
  intros j _. reflexivity.
Defined.

(** ** What callbacks cannot do *)

Lemma same_thread_state_refl s : same_thread_state s s.
Proof. repeat split. Qed.

Lemma same_thread_state_trans s1 s2 s3 :
  same_thread_state s1 s2 -> same_thread_state s2 s3 ->
  same_thread_state s1 s3.
Proof. unfold same_thread_state. intuition congruence. Qed.

Lemma tame_ret A (a : A) : tame (ret a).
Proof. intros s. split; [apply same_thread_state_refl | constructor]. Qed.

Lemma tame_raise A e : tame (@raise event A e).
Proof. intros s. split; [apply same_thread_state_refl | constructor]. Qed.

Lemma tame_emit e : is_offline e = false -> tame (emit e).
Proof.
  intros He s. split; [apply same_thread_state_refl | now repeat constructor].
Qed.

Lemma tame_of_lib A (r : libres A) : tame (of_lib r).
Proof. destruct r; [apply tame_ret | apply tame_raise]. Qed.

Lemma tame_bind A B (m : M event A) (f : A -> M event B) :
  tame m -> (forall a, tame (f a)) -> tame (bind m f).
Proof.
  intros Hm Hf s. unfold bind. specialize (Hm s).
  destruct (m s) as [[[a|e|] s1] t1]; try exact Hm.
  specialize (Hf a s1). destruct (f a s1) as [[r s2] t2].
  unfold state_of, trace_of in *. cbn in *.
  destruct Hm as [Hs1 Ht1], Hf as [Hs2 Ht2]. split.
  - exact (same_thread_state_trans Hs1 Hs2).
  - apply Forall_app. now split.
Qed.

Lemma tame_try_except A (body handler : M event A) exc :
  tame body -> tame handler -> tame (try_except body exc handler).
Proof.
  intros Hb Hh s. unfold try_except. specialize (Hb s).
  destruct (body s) as [[[a|e|] s1] t1]; try exact Hb.
  destruct (exn_eqb e exc); [|exact Hb].
  specialize (Hh s1). destruct (handler s1) as [[r s2] t2].
  unfold state_of, trace_of in *. cbn in *.
  destruct Hb as [Hs1 Ht1], Hh as [Hs2 Ht2]. split.
  - exact (same_thread_state_trans Hs1 Hs2).
  - apply Forall_app. now split.
Qed.

Lemma tame_for_in A (xs : list A) (body : A -> M event ctl) :
  (forall x, tame (body x)) -> tame (for_in xs body).
Proof.
  intros Hbody. induction xs as [|x xs IH]; [apply tame_ret|].
  cbn [for_in]. apply tame_bind; [apply Hbody|].
  intros [|]; [exact IH | apply tame_ret].
Qed.

Lemma tame_subprocess_run E args : tame (subprocess_run E args).
Proof.
  unfold subprocess_run. destruct (as_strs args); [|apply tame_raise].
  intros s. split; [repeat split | now repeat constructor].
Qed.

Lemma tame_send_wol E mac ip : tame (send_wol E mac ip).
Proof.
  unfold send_wol. apply tame_bind.
  - destruct (is_none ip); apply tame_subprocess_run.
  - intros status. destruct (negb _); [|apply tame_ret].
    apply tame_bind; [now apply tame_emit | intros; apply tame_ret].
Qed.

Lemma tame_wakeup E mac ip count : tame (wakeup E mac ip count).
Proof.
  unfold wakeup. apply tame_bind.
  - destruct (is_none ip); now apply tame_emit.
  - intros _. apply tame_bind.
    + destruct count; try apply tame_raise; apply tame_ret.
    + intros n. apply tame_for_in. intros i.
      apply tame_bind; [apply tame_send_wol|].
      intros ok. destruct (negb ok); [apply tame_ret|].
      apply tame_bind; [|intros; apply tame_ret].
      destruct (i <? n - 1)%Z; [now apply tame_emit | apply tame_ret].
Qed.

Lemma tame_contains key data : tame (contains key data).
Proof. destruct data; try apply tame_raise; apply tame_ret. Qed.

Lemma tame_getitem data key : tame (getitem data key).
Proof.
  destruct data; try apply tame_raise. cbn.
  destruct (lookup key items); [apply tame_ret | apply tame_raise].
Qed.

Lemma tame_on_message E msg : tame (on_message E msg).
Proof.
  unfold on_message.
  apply tame_bind; [apply tame_of_lib|]. intros text.
  apply tame_bind; [now apply tame_emit|]. intros _.
  apply tame_try_except.
  - apply tame_bind; [apply tame_of_lib|]. intros data.
    apply tame_bind; [apply tame_contains|]. intros has_ip.
    apply tame_bind;
      [destruct has_ip; [apply tame_getitem | apply tame_ret]|].
    intros ip.
    apply tame_bind; [apply tame_contains|]. intros has_repeat.
    apply tame_bind;
      [destruct has_repeat; [apply tame_getitem | apply tame_ret]|].
    intros count.
    apply tame_bind; [apply tame_contains|]. intros [|].
    + apply tame_bind; [apply tame_getitem|]. intros mac.
      apply tame_wakeup.
    + apply tame_bind; [apply tame_of_lib|]. intros text'.
      now apply tame_emit.
  - apply tame_bind; [apply tame_of_lib|]. intros text'. now apply tame_emit.
Qed.

Lemma tame_on_connect rc : tame (on_connect rc).
Proof.
  unfold on_connect. apply tame_bind; [now apply tame_emit|]. intros _.
  destruct (rc =? 0)%Z.
  - apply tame_bind; [now apply tame_emit|]. intros _. now apply tame_emit.
  - apply tame_bind; [now apply tame_emit|]. intros _.
    apply tame_bind; [now apply tame_emit|]. intros _. now apply tame_emit.
Qed.

Lemma tame_run_callback E cb : tame (run_callback E cb).
Proof. destruct cb; [apply tame_on_connect | apply tame_on_message]. Qed.

(** ** The main thread *)

Lemma main_events_app a b : main_events (a ++ b) = main_events a ++ main_events b.
Proof. unfold main_events. apply flat_map_app. Qed.

Lemma offline_publishes_app a b :
  offline_publishes (a ++ b) = offline_publishes a + offline_publishes b.
Proof. unfold offline_publishes. now rewrite map_app, number_of_app. Qed.

Lemma main_events_net t : main_events (map Net t) = [].
Proof. induction t as [|e t IH]; [reflexivity | exact IH]. Qed.

Lemma offline_publishes_net t :
  Forall (fun e => is_offline e = false) t -> offline_publishes (map Net t) = 0.
Proof.
  unfold offline_publishes, number_of. induction 1 as [|e t He _ IH];
    [reflexivity|]. cbn. now rewrite He.
Qed.

Section MainThread.

Variable cfg : config.
Variable E : env.

Lemma deliver_spec cbs : forall s,
  let o := deliver E cbs s in
  result_of o = Ret tt /\
  same_thread_state s (state_of o) /\
  main_events (trace_of o) = [] /\
  offline_publishes (trace_of o) = 0.
Proof.
  induction cbs as [|cb cbs IH]; intros s.
  - repeat split.
  - cbn [deliver]. unfold bind, deliver1.
    destruct (tame_run_callback E cb s) as [Hs Ht].
    destruct (run_callback E cb s) as [[r s1] t1].
    unfold state_of, trace_of in Hs, Ht. cbn in Hs, Ht.
    destruct (IH s1) as [Hr [Hs' [Hm Ho]]].
    destruct (deliver E cbs s1) as [[r2 s2] t2].
    unfold result_of, state_of, trace_of in *. cbn in *.
    split; [exact Hr|]. split; [exact (same_thread_state_trans Hs Hs')|].
    rewrite main_events_app, offline_publishes_app, main_events_net, Hm, Ho.
    now rewrite offline_publishes_net.
Qed.

Lemma call_run e s :
  exists s1 t1,
    moved s s1 /\
    main_events t1 = [e] /\
    offline_publishes t1 = (if is_offline e then 1 else 0) /\
    call E e s =
      ((if sigint E (calls s) then Raise KeyboardInterrupt else Ret tt),
       s1, t1).
Proof.
  unfold call, bind, emit, count_call.
  destruct (deliver_spec (background E (calls s)) s) as [Hr [Hs [Hm Ho]]].
  destruct (deliver E (background E (calls s)) s) as [[r s1] t1].
  unfold result_of, state_of, trace_of in *. cbn in Hr, Hs, Hm, Ho.
  subst r. destruct Hs as [Hc [Hn Hb]].
  destruct (sigint E (calls s)); cbn.
  - eexists _, _. split; [|split; [|split; [|reflexivity]]].
    + unfold moved. cbn. now rewrite Hc, Hn, Hb.
    + now rewrite main_events_app, Hm.
    + rewrite offline_publishes_app, Ho. unfold offline_publishes, number_of.
      cbn. now destruct (is_offline e).
  - eexists _, _. split; [|split; [|split; [|reflexivity]]].
    + unfold moved. cbn. now rewrite Hc, Hn, Hb.
    + now rewrite ?app_nil_r, main_events_app, Hm.
    + rewrite ?app_nil_r, offline_publishes_app, Ho.
      unfold offline_publishes, number_of. cbn. now destruct (is_offline e).
Qed.

Lemma call_bind e (f : unit -> M entry unit) s :
  exists s1 t1,
    moved s s1 /\
    main_events t1 = [e] /\
    offline_publishes t1 = (if is_offline e then 1 else 0) /\
    bind (call E e) f s =
      if sigint E (calls s) then (Raise KeyboardInterrupt, s1, t1)
      else let '(r, s2, t2) := f tt s1 in (r, s2, t1 ++ t2).
Proof.
  destruct (call_run e s) as [s1 [t1 [Hs [Hm [Ho Hrun]]]]].
  exists s1, t1. repeat (split; [assumption|]).
  unfold bind. rewrite Hrun. now destruct (sigint E (calls s)).
Qed.

Lemma with_client_bound A (m : M entry A) s :
  client s = true -> with_client m s = m s.
Proof. intros H. unfold with_client. now rewrite H. Qed.

Lemma with_client_bind A (m : M entry unit) (f : unit -> M entry A) s :
  client s = true -> bind (with_client m) f s = bind m f s.
Proof. intros H. unfold bind. now rewrite with_client_bound. Qed.

(** *** The heartbeat loop has no exit of its own *)

Lemma heartbeat_keeps_going fuel : forall s,
  sleep_fate E (UPDATE_INTERVAL cfg) = None ->
  client s = true ->
  (forall j, calls s <= j -> sigint E j = false) ->
  let o := heartbeat cfg E fuel s in
  result_of o = Running /\
  calls (state_of o) = calls s + 3 * fuel /\
  main_events (trace_of o) = rounds cfg fuel.
Proof.
  induction fuel as [|fuel IH]; intros s Hsleep Hb Hq.
  - cbn. split; [reflexivity|]. split; [lia | reflexivity].
  - cbn [heartbeat rounds]. unfold time_sleep. rewrite Hsleep.
    destruct (call_bind
      (Log DEBUG (Text (lit "MQTT: publishing online Status update")))
      (fun _ => with_client (call E (Publish status_topic (lit "online"))) ;;
                call E (Sleep (UPDATE_INTERVAL cfg)) ;;
                heartbeat cfg E fuel) s)
      as [s1 [t1 [[Hc1 [_ Hb1]] [Hm1 [_ Hrun1]]]]].
    rewrite Hrun1, (Hq (calls s)) by lia. clear Hrun1.
    rewrite with_client_bind by congruence.
    destruct (call_bind (Publish status_topic (lit "online"))
      (fun _ => call E (Sleep (UPDATE_INTERVAL cfg)) ;; heartbeat cfg E fuel)
      s1) as [s2 [t2 [[Hc2 [_ Hb2]] [Hm2 [_ Hrun2]]]]].
    rewrite Hrun2, (Hq (calls s1)) by lia. clear Hrun2.
    destruct (call_bind (Sleep (UPDATE_INTERVAL cfg))
      (fun _ => heartbeat cfg E fuel) s2)
      as [s3 [t3 [[Hc3 [_ Hb3]] [Hm3 [_ Hrun3]]]]].
    rewrite Hrun3, (Hq (calls s2)) by lia. clear Hrun3.
    destruct (IH s3) as [Hr [Hc Hm]];
      [exact Hsleep | congruence | intros j Hj; apply Hq; lia |].
    destruct (heartbeat cfg E fuel s3) as [[r s4] t4].
    unfold result_of, state_of, trace_of in *. cbn in *.
    split; [exact Hr|]. split; [lia|].
    rewrite !main_events_app, Hm1, Hm2, Hm3, Hm. reflexivity.
Qed.

End MainThread.

(** ** Stepping through the main thread *)

Lemma bind_assoc Ev A B C (m : M Ev A) (f : A -> M Ev B) (g : B -> M Ev C) s :
  bind (bind m f) g s = bind m (fun a => bind (f a) g) s.
Proof.
  unfold bind. destruct (m s) as [[[a|e|] s1] t1]; try reflexivity.
  destruct (f a s1) as [[[b|e|] s2] t2]; try reflexivity.
  destruct (g b s2) as [[r s3] t3]. now rewrite app_assoc.
Qed.

Section Steps.

Variable cfg : config.
Variable E : env.



End Steps.

(** ** An interrupt at call [k] *)

Section Interrupt.

Variable cfg : config.
Variable E : env.
Variable k : nat.

Hypothesis Hk : sigint E k = true.
Hypothesis Hother : forall j, j <> k -> sigint E j = false.
Hypothesis Hfate :
  forall n, connect_fate E n = None \/
            connect_fate E n = Some ConnectionRefusedError.
Hypothesis Hsleep : sleep_fate E (UPDATE_INTERVAL cfg) = None.




Lemma sees_weaken (P Q : result unit -> state -> nat -> Prop) o :
  (forall r s n, P r s n -> Q r s n) -> sees P o -> sees Q o.
Proof. unfold sees. auto. Qed.








End Interrupt.





(** ** A connection that is made and never interrupted *)

Section Connected.

Variable cfg : config.
Variable E : env.

Hypothesis Hquiet : forall j, sigint E j = false.
Hypothesis Hmade : forall n, connect_fate E n = None.
Hypothesis Hsleep : sleep_fate E (UPDATE_INTERVAL cfg) = None.

Lemma supervise_connected fuel s :
  client s = true ->
  let o := supervise cfg E fuel s in
  result_of o = Running /\
  main_events (trace_of o) =
    match fuel with
    | O => []
    | S fuel' => connecting cfg ++ rounds cfg fuel'
    end.
Proof.
  intros Hb. destruct fuel as [|fuel]; [split; reflexivity|].
  enough (Hany : forall o, supervise cfg E (S fuel) s = o ->
            result_of o = Running /\
            main_events (trace_of o) = connecting cfg ++ rounds cfg fuel)
    by exact (Hany _ eq_refl).
  intros o Ho. cbn [supervise] in Ho. unfold client_connect in Ho.
  destruct (call_bind E
    (Log INFO (Text (lit "MQTT: connecting to broker...")))
    (fun _ =>
       try_except
         ((with_client (call E (Connect (MQTT_BROKER cfg) (MQTT_PORT cfg) 60)) ;;
           (fun s0 =>
              (match connect_fate E (connects s0) with
               | Some e => Raise e
               | None => Ret tt
               end,
               {| execs := execs s0; calls := calls s0;
                  connects := S (connects s0); client := client s0 |}, []))) ;;
          with_client (call E LoopStart) ;;
          heartbeat cfg E fuel)
         ConnectionRefusedError
         (call E (Log ERROR
                    (Format (lit "Failed to connect to broker on {ip}:{port}")
                            [(lit "ip", PStr (MQTT_BROKER cfg));
                             (lit "port", PInt (MQTT_PORT cfg))])) ;;
          call E (Sleep 30)) ;;
       supervise cfg E fuel) s)
    as [s1 [t1 [[Hc1 [_ Hb1]] [Hm1 [_ Hrun1]]]]].
  rewrite Hrun1, Hquiet in Ho. clear Hrun1.
  unfold bind at 1 in Ho. unfold try_except in Ho.
  rewrite bind_assoc, with_client_bind in Ho by congruence.
  destruct (call_bind E (Connect (MQTT_BROKER cfg) (MQTT_PORT cfg) 60)
    (fun a =>
       (fun s0 =>
          (match connect_fate E (connects s0) with
           | Some e => Raise e
           | None => Ret tt
           end,
           {| execs := execs s0; calls := calls s0;
              connects := S (connects s0); client := client s0 |}, [])) ;;
       with_client (call E LoopStart) ;;
       heartbeat cfg E fuel) s1)
    as [s2 [t2 [[Hc2 [_ Hb2]] [Hm2 [_ Hrun2]]]]].
  rewrite Hrun2, Hquiet in Ho. clear Hrun2.
  unfold bind at 1 in Ho. rewrite Hmade in Ho.
  set (s2' := {| execs := execs s2; calls := calls s2;
                 connects := S (connects s2); client := client s2 |}) in *.
  rewrite with_client_bind in Ho by (cbn; congruence).
  destruct (call_bind E LoopStart (fun _ => heartbeat cfg E fuel) s2')
    as [s3 [t3 [[Hc3 [_ Hb3]] [Hm3 [_ Hrun3]]]]].
  rewrite Hrun3, Hquiet in Ho. clear Hrun3.
  destruct (@heartbeat_keeps_going cfg E fuel s3) as [Hr [_ Hm]];
    [exact Hsleep | cbn in Hb3; congruence | intros; apply Hquiet |].
  destruct (heartbeat cfg E fuel s3) as [[r s4] t4].
  unfold result_of, state_of, trace_of in Hr, Hm. cbn [fst snd] in Hr, Hm.
  subst r o. unfold result_of, state_of, trace_of. cbn [fst snd app].
  split; [reflexivity|].
  rewrite !main_events_app, Hm1, Hm2, Hm3, Hm. reflexivity.
Qed.

Lemma script_connected fuel :
  let o := script cfg E fuel start in
  result_of o = Running /\
  main_events (trace_of o) =
    prologue cfg ++
    match fuel with
    | O => []
    | S fuel' => connecting cfg ++ rounds cfg fuel'
    end.
Proof.
  enough (Hany : forall o, script cfg E fuel start = o ->
            result_of o = Running /\
            main_events (trace_of o) =
              prologue cfg ++
              match fuel with
              | O => []
              | S fuel' => connecting cfg ++ rounds cfg fuel'
              end)
    by exact (Hany _ eq_refl).
  intros o Ho. unfold script, setup in Ho.
  unfold bind at 1 in Ho. unfold try_except in Ho. rewrite bind_assoc in Ho.
  destruct (call_bind E (NewClient (lit "wol-mqtt"))
    (fun a =>
       (bind_client ;;
        with_client (call E (WillSet status_topic (lit "offline"))) ;;
        with_client (call E (UsernamePwSet (MQTT_USER cfg) (MQTT_PASSWORD cfg)))) ;;
       supervise cfg E fuel) start)
    as [s1 [t1 [[Hc1 [_ Hb1]] [Hm1 [_ Hrun1]]]]].
  rewrite Hrun1, Hquiet in Ho. clear Hrun1.
  rewrite bind_assoc in Ho. unfold bind at 1 in Ho.
  unfold bind_client at 1 in Ho.
  set (s1' := {| execs := execs s1; calls := calls s1;
                 connects := connects s1; client := true |}) in *.
  rewrite bind_assoc, with_client_bind in Ho by reflexivity.
  destruct (call_bind E (WillSet status_topic (lit "offline"))
    (fun a =>
       with_client (call E (UsernamePwSet (MQTT_USER cfg) (MQTT_PASSWORD cfg))) ;;
       supervise cfg E fuel) s1')
    as [s2 [t2 [[Hc2 [_ Hb2]] [Hm2 [_ Hrun2]]]]].
  rewrite Hrun2, Hquiet in Ho. clear Hrun2.
  rewrite with_client_bind in Ho by (cbn in Hb2; congruence).
  destruct (call_bind E (UsernamePwSet (MQTT_USER cfg) (MQTT_PASSWORD cfg))
    (fun _ => supervise cfg E fuel) s2)
    as [s3 [t3 [[Hc3 [_ Hb3]] [Hm3 [_ Hrun3]]]]].
  rewrite Hrun3, Hquiet in Ho. clear Hrun3.
  destruct (@supervise_connected fuel s3) as [Hr Hm];
    [cbn in Hb2; congruence|].
  destruct (supervise cfg E fuel s3) as [[r s4] t4].
  unfold result_of, state_of, trace_of in Hr, Hm. cbn [fst snd] in Hr, Hm.
  subst r o. unfold result_of, state_of, trace_of. cbn [fst snd app].
  split; [reflexivity|].
  rewrite !main_events_app, Hm1, Hm2, Hm3, Hm. reflexivity.
Qed.

End Connected.

Lemma rounds_connect_free cfg n : number_of is_connect (rounds cfg n) = 0.
Proof.
  induction n as [|n IH]; [reflexivity|].
  cbn [rounds]. rewrite number_of_app, IH. reflexivity.
Qed.

(** ** The session *)

(** C6 (as amended).  On a non-zero result code the callback makes no
    subscribe and no publish: it logs the result code and an error, calls
    [disconnect], sleeps five seconds and returns normally, leaving the
    state of the main thread as it was. *)
Theorem on_connect_failure_disconnects rc s :
  rc <> 0%Z ->
  on_connect rc s =
    (Ret tt, s,
     [Log INFO (Text (lit "MQTT: connected to broker with result code "
                      ++ str_of_int rc));
      Log ERROR (Text (lit "Failed to correctly login to MQTT broker"));
      Disconnect;
      Sleep 5]).
Proof.
  intros Hrc. unfold on_connect, bind, log, sleep, emit.
  apply Z.eqb_neq in Hrc. rewrite Hrc. reflexivity.
Qed.

Lemma on_connect_failure_disconnects_witness :
  on_connect 5 start =
    (Ret tt, start,
     [Log INFO (Text (lit "MQTT: connected to broker with result code 5"));
      Log ERROR (Text (lit "Failed to correctly login to MQTT broker"));
      Disconnect;
      Sleep 5]).
Proof.
  exact (@on_connect_failure_disconnects 5 start ltac:(discriminate)).
Defined.

(** C6 fails where it says that the process retries: when the broker refuses
    the login after the TCP connection was made, the callback disconnects,
    and the main thread, which is in the heartbeat loop, calls [connect] no
    second time, however long it runs. *)
Lemma login_refused_no_reconnect :
  In (Net Disconnect)
     (trace_of (script cfg_default E_login_refused 6 start)) /\
  connects_after_disconnect
     (trace_of (script cfg_default E_login_refused 6 start)) = 0 /\
  (forall fuel,
     let o := script cfg_default E_login_refused fuel start in
     result_of o = Running /\
     number_of is_connect (main_events (trace_of o)) <= 1).
Proof.
  split; [|split].
  - vm_compute. repeat (first [left; reflexivity | right]).
  - vm_compute. reflexivity.
  - intros fuel o. subst o.
    destruct (@script_connected cfg_default E_login_refused
                (fun _ => eq_refl) (fun _ => eq_refl) eq_refl fuel)
      as [Hr Hm].
    split; [exact Hr|]. rewrite Hm.
    destruct fuel as [|fuel]; [cbn; lia|].
    rewrite !number_of_app, rounds_connect_free. cbn. lia.
Qed.

Lemma bind_ret_inv Ev A B (m : M Ev A) (f : A -> M Ev B) s b :
  result_of (bind m f s) = Ret b ->
  exists a s1, result_of (f a s1) = Ret b.
Proof.
  unfold bind. destruct (m s) as [[[a|e|] s1] t1]; try discriminate.
  intros H. exists a, s1. now destruct (f a s1) as [[r s2] t2].
Qed.

Lemma heartbeat_no_normal_exit cfg E fuel : forall s,
  result_of (heartbeat cfg E fuel s) <> Ret tt.
Proof.
  induction fuel as [|fuel IH]; intros s H; [discriminate|].
  cbn [heartbeat] in H.
  apply bind_ret_inv in H. destruct H as [_ [s1 H]].
  apply bind_ret_inv in H. destruct H as [_ [s2 H]].
  apply bind_ret_inv in H. destruct H as [_ [s3 H]].
  exact (IH s3 H).
Qed.

(** ** Outcomes, composed *)

Lemma bind_and_then A B (m : M entry A) (f : A -> M entry B) s :
  bind m f s = and_then f (m s).
Proof.
  unfold bind, and_then. destruct (m s) as [[[a|e|] s1] t1]; reflexivity.
Qed.

Lemma try_except_catching A (body handler : M entry A) exc s :
  try_except body exc handler s = catching exc handler (body s).
Proof.
  unfold try_except, catching.
  destruct (body s) as [[[a|e|] s1] t1]; reflexivity.
Qed.





Lemma result_after A t (o : result A * state * list entry) :
  result_of (after t o) = result_of o.
Proof. now destruct o as [[r s] t']. Qed.

Lemma trace_after A t (o : result A * state * list entry) :
  trace_of (after t o) = t ++ trace_of o.
Proof. now destruct o as [[r s] t']. Qed.

Lemma heartbeat_refused_interval cfg E fuel s e :
  sleep_fate E (UPDATE_INTERVAL cfg) = Some e ->
  client s = true ->
  sigint E (calls s) = false ->
  sigint E (S (calls s)) = false ->
  let o := heartbeat cfg E (S fuel) s in
  result_of o = Raise e /\
  main_events (trace_of o) =
    [Log DEBUG (Text (lit "MQTT: publishing online Status update"));
     Publish status_topic (lit "online")].
Proof.
  intros Hsleep Hb H0 H1 o. subst o. cbn [heartbeat].
  unfold time_sleep. rewrite Hsleep.
  destruct (call_run E
    (Log DEBUG (Text (lit "MQTT: publishing online Status update"))) s)
    as [s1 [t1 [[Hc1 [_ Hb1]] [Hm1 [_ Hrun1]]]]].
  rewrite H0 in Hrun1.
  destruct (call_run E (Publish status_topic (lit "online")) s1)
    as [s2 [t2 [_ [Hm2 [_ Hrun2]]]]].
  rewrite Hc1, H1 in Hrun2.
  rewrite bind_and_then, Hrun1. cbn [and_then].
  rewrite with_client_bind by congruence.
  rewrite bind_and_then, Hrun2. cbn [and_then].
  rewrite bind_and_then. unfold raise. cbn [and_then after].
  unfold result_of, trace_of. cbn [fst snd].
  split; [reflexivity|].
  now rewrite ?app_nil_r, main_events_app, Hm1, Hm2.
Qed.

(** C7 (as amended).  Once started, the heartbeat loop logs, publishes
    [online] to the status topic and sleeps [UPDATE_INTERVAL] seconds, round
    after round.  It does not read the state of the session: it never ends
    normally, and only an exception raised in the main thread ends it.  With
    an interval that [time.sleep] accepts and no interrupt it is still
    running after any number of rounds, whatever the callbacks did
    meanwhile; with an interval that [time.sleep] refuses, that exception
    ends it in its first round, after the first publish. *)
Theorem heartbeat_runs_until_an_exception cfg E fuel s :
  let o := heartbeat cfg E fuel s in
  result_of o <> Ret tt /\
  (client s = true ->
   (forall j, calls s <= j -> sigint E j = false) ->
   (sleep_fate E (UPDATE_INTERVAL cfg) = None ->
    result_of o = Running /\
    main_events (trace_of o) = rounds cfg fuel) /\
   (forall e,
      sleep_fate E (UPDATE_INTERVAL cfg) = Some e ->
      0 < fuel ->
      result_of o = Raise e /\
      main_events (trace_of o) =
        [Log DEBUG (Text (lit "MQTT: publishing online Status update"));
         Publish status_topic (lit "online")])).
Proof.
  intros o. subst o. split; [apply heartbeat_no_normal_exit|].
  intros Hb Hq. split.
  - intros Hsleep.
    destruct (@heartbeat_keeps_going cfg E fuel s Hsleep Hb Hq)
      as [Hr [_ Hm]].
    split; assumption.
  - intros e Hsleep Hfuel. destruct fuel as [|fuel]; [lia|].
    apply heartbeat_refused_interval;
      [exact Hsleep | exact Hb | apply Hq; lia | apply Hq; lia].
Qed.

Lemma heartbeat_runs_until_an_exception_witness :
  result_of (heartbeat cfg_default E_login_refused 3
               {| execs := 0; calls := 6; connects := 1; client := true |})
    = Running /\
  main_events
    (trace_of (heartbeat cfg_default E_login_refused 3
                 {| execs := 0; calls := 6; connects := 1; client := true |}))
    = rounds cfg_default 3.
Proof.
  exact (proj1 (proj2 (@heartbeat_runs_until_an_exception cfg_default
                         E_login_refused 3
                         {| execs := 0; calls := 6; connects := 1;
                            client := true |})
                  eq_refl (fun _ _ => eq_refl)) eq_refl).
Defined.

(** C7 fails on a disconnect: after the callback has disconnected the
    client, the loop has not ended and publishes [online] again. *)
Lemma heartbeat_goes_on_after_disconnect :
  let o := script cfg_default E_login_refused 4 start in
  result_of o = Running /\
  In (Net Disconnect) (trace_of o) /\
  heartbeats_while_disconnected false (trace_of o) = 2.
Proof.
  split; [|split].
  - vm_compute. reflexivity.
  - vm_compute. repeat (first [left; reflexivity | right]).
  - vm_compute. reflexivity.
Qed.

(** * Further properties *)

(** ** How [wakeup] ends *)

Section WakeupEnds.

Variable E : env.
Variables mac ip : pyval.
Variable argv : list pystr.
Variable n : Z.

Hypothesis Hargs : as_strs (command_line mac ip) = Some argv.

Lemma attempt_run i s :
  attempt E mac ip n i s =
  let o := helper E (execs s) argv in
  let s' := {| execs := S (execs s); calls := calls s;
               connects := connects s; client := client s |} in
  match o with
  | Returns p =>
      if str_in (lit "magic packet") (stdout p)
      then (Ret Next, s',
            Exec argv o :: (if (i <? n - 1)%Z then [Sleep 1] else []))
      else (Ret Break, s', [Exec argv o; error_line p])
  | Raises e => (Raise e, s', [Exec argv o])
  end.
Proof.
  unfold attempt, bind. rewrite send_wol_run, Hargs. cbv zeta.
  destruct (helper E (execs s) argv) as [p|e]; [|reflexivity].
  destruct (str_in (lit "magic packet") (stdout p)); [|reflexivity].
  cbn [negb]. now destruct (i <? n - 1)%Z.
Qed.

Lemma loop_returns k : forall a s,
  (forall j, j < k -> exists p, helper E (execs s + j) argv = Returns p) ->
  result_of (for_in (map Z.of_nat (seq a k)) (attempt E mac ip n) s) = Ret tt.
Proof.
  induction k as [|k IH]; intros a s Hall; [reflexivity|].
  cbn [seq map for_in]. unfold bind. rewrite attempt_run. cbv zeta.
  destruct (Hall 0 (Nat.lt_0_succ k)) as [p Hp].
  rewrite Nat.add_0_r in Hp. rewrite Hp.
  destruct (str_in (lit "magic packet") (stdout p)); [|reflexivity].
  specialize (IH (S a)
    {| execs := S (execs s); calls := calls s;
       connects := connects s; client := client s |}).
  destruct (for_in _ _ _) as [[r s'] t]. unfold result_of in *. cbn in *.
  apply IH. intros j Hj. destruct (Hall (S j)) as [q Hq]; [lia|].
  exists q. now rewrite <- Nat.add_succ_r.
Qed.

Lemma loop_raises k : forall a s j e,
  j < k ->
  (forall i, i < j -> send_ok (helper E (execs s + i) argv) = true) ->
  helper E (execs s + j) argv = Raises e ->
  let o := for_in (map Z.of_nat (seq a k)) (attempt E mac ip n) s in
  result_of o = Raise e /\
  number_of is_exec (trace_of o) = S j /\
  number_of is_error (trace_of o) = 0.
Proof.
  induction k as [|k IH]; intros a s j e Hj Hok Hraise; [lia|].
  cbn [seq map for_in]. unfold bind. rewrite attempt_run. cbv zeta.
  destruct j as [|j].
  - rewrite Nat.add_0_r in Hraise. rewrite Hraise. repeat split.
  - pose proof (Hok 0 (Nat.lt_0_succ j)) as H0. rewrite Nat.add_0_r in H0.
    destruct (helper E (execs s) argv) as [p|e0]; [|discriminate].
    unfold send_ok in H0. rewrite H0.
    specialize (IH (S a)
      {| execs := S (execs s); calls := calls s;
         connects := connects s; client := client s |} j e).
    cbn [execs] in IH.
    destruct IH as [Hr [Hx Herr]].
    + lia.
    + intros i Hi. rewrite Nat.add_succ_l, <- Nat.add_succ_r. apply Hok. lia.
    + now rewrite Nat.add_succ_l, <- Nat.add_succ_r.
    + destruct (for_in _ _ _) as [[r s'] t].
      unfold result_of, trace_of in *. cbn [fst snd] in *.
      split; [exact Hr|].
      change (Exec argv (Returns p) ::
              (if (Z.of_nat a <? n - 1)%Z then [Sleep 1] else []))
        with ([Exec argv (Returns p)] ++
              (if (Z.of_nat a <? n - 1)%Z then [Sleep 1] else [])).
      rewrite !number_of_app, Hx, Herr.
      destruct (Z.of_nat a <? n - 1)%Z; split; reflexivity.
Qed.

Lemma attempts_one_error_at_most k : forall base,
  number_of is_error (attempts E argv base k) <= 1.
Proof.
  induction k as [|k IH]; intros base; [cbn; lia|].
  cbn [attempts]. cbv zeta.
  destruct (helper E base argv) as [p|e]; [|cbn; lia].
  destruct (str_in _ (stdout p)); [|cbn; lia].
  destruct k as [|k]; [cbn; lia|]. exact (IH (S base)).
Qed.

Lemma attempts_command_line k : forall base a o,
  In (Exec a o) (attempts E argv base k) ->
  a = argv /\ exists j, j < k /\ o = helper E (base + j) argv.
Proof.
  induction k as [|k IH]; intros base a o Hin; [destruct Hin|].
  cbn [attempts] in Hin. cbv zeta in Hin. destruct Hin as [Heq|Hin].
  - injection Heq as <- <-. split; [reflexivity|].
    exists 0. split; [lia | now rewrite Nat.add_0_r].
  - destruct (helper E base argv) as [p|e]; [|destruct Hin].
    destruct (str_in _ (stdout p)).
    + destruct k as [|k]; [destruct Hin|].
      destruct Hin as [Heq|Hin]; [discriminate|].
      destruct (IH _ _ _ Hin) as [Ha [j [Hj Ho]]]. split; [exact Ha|].
      exists (S j). split; [lia | now rewrite Nat.add_succ_r].
    + destruct Hin as [Heq|[]]. discriminate.
Qed.

End WakeupEnds.

Lemma attempts_error_iff_failure E argv k : forall base,
  (forall j, j < k -> exists p, helper E (base + j) argv = Returns p) ->
  (number_of is_error (attempts E argv base k) = 1 <->
   exists j, j < k /\ send_ok (helper E (base + j) argv) = false).
Proof.
  induction k as [|k IH]; intros base Hall.
  - split; [discriminate | intros [j [Hj _]]; lia].
  - cbn [attempts]. cbv zeta.
    destruct (Hall 0 (Nat.lt_0_succ k)) as [p Hp].
    rewrite Nat.add_0_r in Hp. rewrite Hp.
    destruct (str_in (lit "magic packet") (stdout p)) eqn:Hok.
    + assert (Hrest : forall j, j < k ->
                exists q, helper E (S base + j) argv = Returns q).
      { intros j Hj. destruct (Hall (S j)) as [q Hq]; [lia|].
        exists q. now rewrite Nat.add_succ_l, <- Nat.add_succ_r. }
      assert (Hshift :
        (exists j, j < k /\ send_ok (helper E (S base + j) argv) = false) <->
        (exists j, j < S k /\ send_ok (helper E (base + j) argv) = false)).
      { split.
        - intros [j [Hj Hf]]. exists (S j). split; [lia|].
          now rewrite Nat.add_succ_r, <- Nat.add_succ_l.
        - intros [[|j] [Hj Hf]].
          + rewrite Nat.add_0_r, Hp in Hf. unfold send_ok in Hf. congruence.
          + exists j. split; [lia|].
            now rewrite Nat.add_succ_l, <- Nat.add_succ_r. }
      rewrite <- Hshift. destruct k as [|k].
      * split; [discriminate | intros [j [Hj _]]; lia].
      * exact (IH (S base) Hrest).
    + split; [|reflexivity]. intros _. exists 0. split; [lia|].
      rewrite Nat.add_0_r, Hp. exact Hok.
Qed.

Lemma wakeup_returns_if_helper_completes E mac ip argv n s :
  as_strs (command_line mac ip) = Some argv ->
  (forall j, j < Z.to_nat n ->
             exists p, helper E (execs s + j) argv = Returns p) ->
  result_of (wakeup E mac ip (PInt n) s) = Ret tt.
Proof.
  intros Hargs Hall.
  rewrite wakeup_unfold. unfold bind, emit, as_index, ret, range.
  pose proof (@loop_returns E mac ip argv n Hargs (Z.to_nat n) 0 s Hall)
    as Hr.
  destruct (for_in _ _ s) as [[r s'] t]. exact Hr.
Qed.

(** X1.  As long as every run of the helper completes, [wakeup] returns
    normally whatever the helper printed; it logs at most one error line, and
    it logs one exactly when one of the sends it was asked for fails. *)
Theorem wakeup_survives_failed_sends E mac ip argv n s :
  as_strs (command_line mac ip) = Some argv ->
  (forall j, j < Z.to_nat n ->
             exists p, helper E (execs s + j) argv = Returns p) ->
  let o := wakeup E mac ip (PInt n) s in
  result_of o = Ret tt /\
  number_of is_error (trace_of o) <= 1 /\
  (number_of is_error (trace_of o) = 1 <->
   exists j, j < Z.to_nat n /\
             send_ok (helper E (execs s + j) argv) = false).
Proof.
  intros Hargs Hall o. subst o. split; [|split].
  - rewrite wakeup_unfold. unfold bind, emit, as_index, ret, range.
    pose proof (@loop_returns E mac ip argv n Hargs (Z.to_nat n) 0 s Hall)
      as Hr.
    destruct (for_in _ _ s) as [[r s'] t]. exact Hr.
  - rewrite wakeup_trace, Hargs. cbn [index_of].
    assert (Hinfo : is_error (info_line mac ip (PInt n)) = false)
      by (unfold info_line; now destruct (is_none ip)).
    unfold number_of. cbn [filter]. rewrite Hinfo.
    apply attempts_one_error_at_most.
  - rewrite wakeup_trace, Hargs. cbn [index_of].
    assert (Hinfo : is_error (info_line mac ip (PInt n)) = false)
      by (unfold info_line; now destruct (is_none ip)).
    unfold number_of at 1. cbn [filter]. rewrite Hinfo.
    now apply attempts_error_iff_failure.
Qed.

Lemma wakeup_survives_failed_sends_witness :
  result_of (wakeup E_rejected (PStr mac_AABB) PNone (PInt 3) start) = Ret tt /\
  number_of is_error
    (trace_of (wakeup E_rejected (PStr mac_AABB) PNone (PInt 3) start)) <= 1.
Proof.
  destruct (@wakeup_survives_failed_sends E_rejected (PStr mac_AABB) PNone
              [lit "wakeonlan"; mac_AABB] 3 start eq_refl
              (fun j _ => ex_intro _ rejected eq_refl)) as [Hr [Hle _]].
  split; [exact Hr | exact Hle].
Defined.

(** X2.  When a run of the helper raises, after earlier sends that were all
    confirmed, the exception leaves [wakeup]: no further send is made and no
    error line is logged for it. *)
Theorem wakeup_helper_exception_propagates E mac ip argv n s j e :
  as_strs (command_line mac ip) = Some argv ->
  j < Z.to_nat n ->
  (forall i, i < j -> send_ok (helper E (execs s + i) argv) = true) ->
  helper E (execs s + j) argv = Raises e ->
  let o := wakeup E mac ip (PInt n) s in
  result_of o = Raise e /\
  number_of is_exec (trace_of o) = S j /\
  number_of is_error (trace_of o) = 0.
Proof.
  intros Hargs Hj Hok Hraise o. subst o.
  rewrite wakeup_unfold. unfold bind, emit, as_index, ret, range.
  destruct (@loop_raises E mac ip argv n Hargs (Z.to_nat n) 0 s j e
              Hj Hok Hraise) as [Hr [Hx Herr]].
  destruct (for_in _ _ s) as [[r s'] t].
  unfold result_of, trace_of in *. cbn [fst snd] in *.
  assert (Hinfo : is_error (info_line mac ip (PInt n)) = false /\
                  is_exec (info_line mac ip (PInt n)) = false)
    by (unfold info_line; now destruct (is_none ip)).
  destruct Hinfo as [Hie Hix].
  split; [exact Hr|]. unfold number_of in *. cbn [app filter].
  rewrite Hie, Hix. split; assumption.
Qed.

Lemma wakeup_helper_exception_propagates_witness :
  result_of (wakeup E_missing (PStr mac_AABB) PNone (PInt 2) start)
    = Raise FileNotFoundError /\
  number_of is_exec
    (trace_of (wakeup E_missing (PStr mac_AABB) PNone (PInt 2) start)) = 1.
Proof.
  destruct (@wakeup_helper_exception_propagates E_missing (PStr mac_AABB) PNone
              [lit "wakeonlan"; mac_AABB] 2 start 0 FileNotFoundError
              eq_refl ltac:(cbn; lia) ltac:(intros i Hi; lia) eq_refl)
    as [Hr [Hx _]].
  split; [exact Hr | exact Hx].
Defined.

(** X3.  Every run of the helper that [wakeup] makes has the command line
    [wakeonlan MAC] when no IP was given and [wakeonlan -i IP MAC] otherwise,
    and the helper is run only for a string MAC and a string (or absent)
    IP. *)
Theorem wakeup_runs_one_command_line E mac ip count s a o :
  In (Exec a o) (trace_of (wakeup E mac ip count s)) ->
  (ip = PNone /\ exists m, mac = PStr m /\ a = [lit "wakeonlan"; m]) \/
  (exists i m, ip = PStr i /\ mac = PStr m /\
               a = [lit "wakeonlan"; lit "-i"; i; m]).
Proof.
  rewrite wakeup_trace. intros [Heq|Hin].
  { unfold info_line in Heq. destruct (is_none ip); discriminate. }
  destruct (index_of count) as [n|]; [|destruct Hin].
  destruct (as_strs (command_line mac ip)) as [argv|] eqn:Hargs;
    [|destruct Hin].
  destruct (attempts_command_line _ _ _ _ _ _ Hin) as [-> _].
  unfold command_line in Hargs.
  destruct ip; cbn in Hargs; destruct mac; try discriminate;
    injection Hargs as <-; eauto 6.
Qed.

Lemma wakeup_runs_one_command_line_witness :
  exists i m,
    PStr (lit "10.0.0.5") = PStr i /\ PStr mac_AABB = PStr m /\
    [lit "wakeonlan"; lit "-i"; lit "10.0.0.5"; mac_AABB] =
      [lit "wakeonlan"; lit "-i"; i; m].
Proof.
  destruct (@wakeup_runs_one_command_line E_sent (PStr mac_AABB)
              (PStr (lit "10.0.0.5")) (PInt 1) start
              [lit "wakeonlan"; lit "-i"; lit "10.0.0.5"; mac_AABB]
              (Returns sent) ltac:(vm_compute; right; left; reflexivity))
    as [[Hnone _]|H]; [discriminate | exact H].
Defined.

(** ** What leaves [on_message] *)

(** X4.  The handler catches [JSONDecodeError] and nothing else.  When the
    payload is not UTF-8 the exception of the first line leaves the handler
    before anything is logged; when [json.loads] raises another exception,
    it leaves the handler after the debug line, with no error line. *)
Theorem on_message_catches_json_errors_only E msg s :
  (forall e,
     payload_text msg = Raises e ->
     on_message E msg s = (Raise e, s, [])) /\
  (forall text e,
     payload_text msg = Returns text ->
     payload_json msg = Raises e ->
     e <> JSONDecodeError ->
     on_message E msg s = (Raise e, s, [debug_line msg text])).
Proof.
  split.
  - intros e Htext. run_handler. now rewrite Htext.
  - intros text e Htext Hjson He. run_handler. rewrite Htext, Hjson.
    destruct e; try reflexivity. now elim He.
Qed.

Lemma on_message_catches_json_errors_only_witness :
  on_message E_sent msg_not_utf8 start = (Raise UnicodeDecodeError, start, []).
Proof.
  exact (proj1 (on_message_catches_json_errors_only E_sent msg_not_utf8 start)
           UnicodeDecodeError eq_refl).
Defined.

(** X5.  A payload that is valid JSON but not an object.  For [null], a
    boolean or a number the membership test raises a [TypeError] that leaves
    the handler.  An array or a string is searched for the three key names:
    if it holds one of them the subscript raises a [TypeError], otherwise the
    message is dropped with the "No 'mac'" error line.  No helper is run in
    either case. *)
Theorem on_message_not_an_object E msg text v s :
  payload_text msg = Returns text ->
  payload_json msg = Returns v ->
  (is_scalar v = true ->
   on_message E msg s = (Raise TypeError, s, [debug_line msg text])) /\
  (is_sequence v = true ->
   on_message E msg s =
     if mentions (lit "ip") v || mentions (lit "repeat") v
        || mentions (lit "mac") v
     then (Raise TypeError, s, [debug_line msg text])
     else (Ret tt, s, [debug_line msg text; no_mac_line text])).
Proof.
  intros Htext Hjson. split; intros Hv.
  - run_handler. rewrite Htext, Hjson.
    destruct v; try discriminate Hv; reflexivity.
  - run_handler. rewrite Htext, Hjson. unfold no_mac_line.
    destruct v as [| | | |t|l|]; try discriminate Hv; cbn [mentions].
    + destruct (str_in (lit "ip") t); [reflexivity|].
      destruct (str_in (lit "repeat") t); [reflexivity|].
      destruct (str_in (lit "mac") t); reflexivity.
    + destruct (existsb (is_str (lit "ip")) l); [reflexivity|].
      destruct (existsb (is_str (lit "repeat")) l); [reflexivity|].
      destruct (existsb (is_str (lit "mac")) l); reflexivity.
Qed.

Lemma on_message_not_an_object_witness :
  on_message E_sent msg_array start =
    (Raise TypeError, start,
     [debug_line msg_array (json_text "['ip', 1]")]).
Proof.
  exact (proj2 (@on_message_not_an_object E_sent msg_array
                  (json_text "['ip', 1]")
                  (PList [PStr (lit "ip"); PInt 1]) start eq_refl eq_refl)
           eq_refl).
Defined.

(** ** A wake request from end to end *)

Lemma wake_request_run E msg text d mac s :
  payload_text msg = Returns text ->
  payload_json msg = Returns (PDict d) ->
  lookup (lit "mac") d = Some mac ->
  let w := wakeup E mac (field (lit "ip") d PNone)
             (field (lit "repeat") d (PInt 2)) s in
  result_of w <> Raise JSONDecodeError ->
  result_of (on_message E msg s) = result_of w /\
  trace_of (on_message E msg s) = debug_line msg text :: trace_of w.
Proof.
  intros Htext Hjson Hmac w Hw. subst w.
  rewrite (on_message_wake_request E msg s Htext Hjson Hmac).
  unfold bind, emit, try_except.
  destruct (wakeup E mac _ _ s) as [[[u|e|] s'] t];
    unfold result_of, trace_of in *; cbn [fst snd] in *.
  - split; reflexivity.
  - destruct e; try (split; reflexivity). now elim Hw.
  - split; reflexivity.
Qed.

(** X6.  The default wake request: an object with a string ['mac'] and
    neither ['ip'] nor ['repeat'], on a helper that confirms both packets.
    The handler runs [wakeonlan MAC] twice with one one-second pause in
    between, logs no error, and returns normally. *)
Theorem default_wake_request E msg text d m s :
  payload_text msg = Returns text ->
  payload_json msg = Returns (PDict d) ->
  lookup (lit "mac") d = Some (PStr m) ->
  lookup (lit "ip") d = None ->
  lookup (lit "repeat") d = None ->
  send_ok (helper E (execs s) [lit "wakeonlan"; m]) = true ->
  send_ok (helper E (S (execs s)) [lit "wakeonlan"; m]) = true ->
  result_of (on_message E msg s) = Ret tt /\
  trace_of (on_message E msg s) =
    [debug_line msg text;
     info_line (PStr m) PNone (PInt 2);
     Exec [lit "wakeonlan"; m] (helper E (execs s) [lit "wakeonlan"; m]);
     Sleep 1;
     Exec [lit "wakeonlan"; m] (helper E (S (execs s)) [lit "wakeonlan"; m])].
Proof.
  intros Htext Hjson Hmac Hip Hrep Hok1 Hok2.
  pose proof (@wake_request_run E msg text d (PStr m) s Htext Hjson Hmac)
    as Hrun.
  unfold field in Hrun. rewrite Hip, Hrep in Hrun. cbv zeta in Hrun.
  assert (Hcompleted : forall j, j < Z.to_nat 2 ->
            exists p, helper E (execs s + j) [lit "wakeonlan"; m] = Returns p).
  { intros j Hj. assert (Hcase : j = 0 \/ j = 1) by (cbn in Hj; lia).
    destruct Hcase as [-> | ->].
    - rewrite Nat.add_0_r.
      destruct (helper E (execs s) _) as [p|e]; [eauto | discriminate].
    - rewrite Nat.add_1_r.
      destruct (helper E (S (execs s)) _) as [p|e]; [eauto | discriminate]. }
  pose proof (@wakeup_returns_if_helper_completes E (PStr m) PNone
                [lit "wakeonlan"; m] 2 s eq_refl Hcompleted) as Hret.
  destruct Hrun as [Hr Ht]; [rewrite Hret; discriminate|].
  rewrite Hr, Ht, Hret. split; [reflexivity|].
  rewrite wakeup_trace. cbn [index_of command_line is_none as_strs].
  change (Z.to_nat 2) with 2. cbn [attempts]. cbv zeta.
  destruct (helper E (execs s) [lit "wakeonlan"; m]) as [p1|e1];
    [|discriminate].
  destruct (helper E (S (execs s)) [lit "wakeonlan"; m]) as [p2|e2];
    [|discriminate].
  unfold send_ok in Hok1, Hok2. rewrite Hok1, Hok2. reflexivity.
Qed.

Lemma default_wake_request_witness :
  result_of (on_message E_sent msg_mac_only start) = Ret tt /\
  number_of is_exec (trace_of (on_message E_sent msg_mac_only start)) = 2.
Proof.
  destruct (@default_wake_request E_sent msg_mac_only
              (json_text "{'mac': 'AA:BB:CC:DD:EE:FF'}")
              [(lit "mac", PStr mac_AABB)] mac_AABB start
              eq_refl eq_refl eq_refl eq_refl eq_refl eq_refl eq_refl)
    as [Hr Ht].
  split; [exact Hr | rewrite Ht; reflexivity].
Defined.

(** X7.  A directed request for a single packet: an object with string
    ['mac'] and ['ip'] and ['repeat'] 1, on a helper that completes.  The
    handler runs [wakeonlan -i IP MAC] once and returns normally; there is
    no pause, and an error line follows exactly when the helper's output
    lacks the confirmation. *)
Theorem directed_single_send E msg text d m i p s :
  payload_text msg = Returns text ->
  payload_json msg = Returns (PDict d) ->
  lookup (lit "mac") d = Some (PStr m) ->
  lookup (lit "ip") d = Some (PStr i) ->
  lookup (lit "repeat") d = Some (PInt 1) ->
  helper E (execs s) [lit "wakeonlan"; lit "-i"; i; m] = Returns p ->
  result_of (on_message E msg s) = Ret tt /\
  trace_of (on_message E msg s) =
    debug_line msg text ::
    info_line (PStr m) (PStr i) (PInt 1) ::
    Exec [lit "wakeonlan"; lit "-i"; i; m] (Returns p) ::
    (if str_in (lit "magic packet") (stdout p) then [] else [error_line p]).
Proof.
  intros Htext Hjson Hmac Hip Hrep Hrun.
  pose proof (@wake_request_run E msg text d (PStr m) s Htext Hjson Hmac)
    as Hw.
  unfold field in Hw. rewrite Hip, Hrep in Hw. cbv zeta in Hw.
  assert (Hcompleted : forall j, j < Z.to_nat 1 ->
            exists q, helper E (execs s + j)
                        [lit "wakeonlan"; lit "-i"; i; m] = Returns q).
  { intros j Hj. assert (j = 0) as -> by (cbn in Hj; lia).
    rewrite Nat.add_0_r. eauto. }
  pose proof (@wakeup_returns_if_helper_completes E (PStr m) (PStr i)
                [lit "wakeonlan"; lit "-i"; i; m] 1 s eq_refl Hcompleted)
    as Hret.
  destruct Hw as [Hr Ht]; [rewrite Hret; discriminate|].
  rewrite Hr, Ht, Hret. split; [reflexivity|].
  rewrite wakeup_trace. cbn [index_of command_line is_none as_strs].
  change (Z.to_nat 1) with 1. cbn [attempts]. cbv zeta. rewrite Hrun.
  now destruct (str_in (lit "magic packet") (stdout p)).
Qed.

Lemma directed_single_send_witness :
  result_of (on_message E_rejected msg_directed start) = Ret tt /\
  number_of is_exec (trace_of (on_message E_rejected msg_directed start)) = 1 /\
  number_of is_sleep (trace_of (on_message E_rejected msg_directed start)) = 0.
Proof.
  destruct (@directed_single_send E_rejected msg_directed
    (json_text "{'mac': 'AA:BB:CC:DD:EE:FF', 'ip': '10.0.0.5', 'repeat': 1}")
    [(lit "mac", PStr mac_AABB); (lit "ip", PStr (lit "10.0.0.5"));
     (lit "repeat", PInt 1)]
    mac_AABB (lit "10.0.0.5") rejected start
    eq_refl eq_refl eq_refl eq_refl eq_refl eq_refl) as [Hr Ht].
  split; [exact Hr | rewrite Ht; split; reflexivity].
Defined.

(** ** What the message handler never does *)

Section Only.

Variable P : event -> bool.

Lemma only_ret A (a : A) : only P (ret a).
Proof. intros s. reflexivity. Qed.

Lemma only_raise A e : only P (@raise event A e).
Proof. intros s. reflexivity. Qed.

Lemma only_emit e : P e = true -> only P (emit e).
Proof. intros He s. cbn. now rewrite He. Qed.

Lemma only_of_lib A (r : libres A) : only P (of_lib r).
Proof. destruct r; [apply only_ret | apply only_raise]. Qed.

Lemma only_bind A B (m : M event A) (f : A -> M event B) :
  only P m -> (forall a, only P (f a)) -> only P (bind m f).
Proof.
  intros Hm Hf s. unfold bind. specialize (Hm s).
  destruct (m s) as [[[a|e|] s1] t1]; try exact Hm.
  specialize (Hf a s1). destruct (f a s1) as [[r s2] t2].
  unfold trace_of in *. cbn [snd] in *. rewrite forallb_app, Hm, Hf.
  reflexivity.
Qed.

Lemma only_try_except A (body handler : M event A) exc :
  only P body -> only P handler -> only P (try_except body exc handler).
Proof.
  intros Hb Hh s. unfold try_except. specialize (Hb s).
  destruct (body s) as [[[a|e|] s1] t1]; try exact Hb.
  destruct (exn_eqb e exc); [|exact Hb].
  specialize (Hh s1). destruct (handler s1) as [[r s2] t2].
  unfold trace_of in *. cbn [snd] in *. rewrite forallb_app, Hb, Hh.
  reflexivity.
Qed.

Lemma only_for_in A (xs : list A) (body : A -> M event ctl) :
  (forall x, only P (body x)) -> only P (for_in xs body).
Proof.
  intros Hbody. induction xs as [|x xs IH]; [apply only_ret|].
  cbn [for_in]. apply only_bind; [apply Hbody|].
  intros [|]; [exact IH | apply only_ret].
Qed.

Lemma only_contains key data : only P (contains key data).
Proof. destruct data; try apply only_raise; apply only_ret. Qed.

Lemma only_getitem data key : only P (getitem data key).
Proof.
  destruct data; try apply only_raise. cbn.
  destruct (lookup key items); [apply only_ret | apply only_raise].
Qed.

End Only.

Lemma local_send_wol E mac ip : only is_local (send_wol E mac ip).
Proof.
  intros s. rewrite send_wol_run.
  destruct (as_strs (command_line mac ip)) as [argv|]; [|reflexivity].
  cbv zeta. destruct (helper E (execs s) argv) as [p|e]; [|reflexivity].
  now destruct (str_in (lit "magic packet") (stdout p)).
Qed.

Lemma local_wakeup E mac ip count : only is_local (wakeup E mac ip count).
Proof.
  unfold wakeup. apply only_bind.
  - destruct (is_none ip); now apply only_emit.
  - intros _. apply only_bind.
    + destruct count; try apply only_raise; apply only_ret.
    + intros n. apply only_for_in. intros i.
      apply only_bind; [apply local_send_wol|].
      intros ok. destruct (negb ok); [apply only_ret|].
      apply only_bind; [|intros; apply only_ret].
      destruct (i <? n - 1)%Z; [now apply only_emit | apply only_ret].
Qed.

(** X8.  Whatever the payload and whatever the helper does, handling a
    message only logs, runs the helper and sleeps: the handler never
    publishes, subscribes, connects or disconnects, so no reply goes to the
    broker. *)
Theorem on_message_stays_local E msg s :
  forallb is_local (trace_of (on_message E msg s)) = true.
Proof.
  revert s. change (only is_local (on_message E msg)).
  unfold on_message.
  apply only_bind; [apply only_of_lib|]. intros text.
  apply only_bind; [now apply only_emit|]. intros _.
  apply only_try_except.
  - apply only_bind; [apply only_of_lib|]. intros data.
    apply only_bind; [apply only_contains|]. intros has_ip.
    apply only_bind;
      [destruct has_ip; [apply only_getitem | apply only_ret]|].
    intros ip.
    apply only_bind; [apply only_contains|]. intros has_repeat.
    apply only_bind;
      [destruct has_repeat; [apply only_getitem | apply only_ret]|].
    intros count.
    apply only_bind; [apply only_contains|]. intros [|].
    + apply only_bind; [apply only_getitem|]. intros mac.
      apply local_wakeup.
    + apply only_bind; [apply only_of_lib|]. intros text'.
      now apply only_emit.
  - apply only_bind; [apply only_of_lib|]. intros text'. now apply only_emit.
Qed.

(** ** Connecting, with no interrupt *)

Section NoInterrupt.

Variable cfg : config.
Variable E : env.

Hypothesis Hquiet : forall j, sigint E j = false.








End NoInterrupt.








(** X12.  An interrupt that arrives while the client object is being built
    is caught like any other, but the shutdown lines then use a name that
    was never bound: after the two log lines the script ends with a
    [NameError], and nothing is published. *)
Theorem interrupt_before_the_client_exists cfg E fuel :
  sigint E 0 = true ->
  sigint E 1 = false ->
  sigint E 2 = false ->
  let o := script cfg E fuel start in
  result_of o = Raise NameError /\
  main_events (trace_of o) =
    [NewClient (lit "wol-mqtt");
     Log INFO (Text (lit "Interrupted... shutting down"));
     Log INFO (Text (lit "MQTT: Publishing offline status"))] /\
  offline_publishes (trace_of o) = 0.
Proof.
  intros H0 H1 H2 o. subst o.
  destruct (call_run E (NewClient (lit "wol-mqtt")) start)
    as [s1 [t1 [[Hc1 [_ Hb1]] [Hm1 [Ho1 Hrun1]]]]].
  change (calls start) with 0 in Hrun1, Hc1. rewrite H0 in Hrun1.
  destruct (call_run E (Log INFO (Text (lit "Interrupted... shutting down")))
              s1) as [s2 [t2 [[Hc2 [_ Hb2]] [Hm2 [Ho2 Hrun2]]]]].
  rewrite Hc1, H1 in Hrun2.
  destruct (call_run E (Log INFO (Text (lit "MQTT: Publishing offline status")))
              s2) as [s3 [t3 [[Hc3 [_ Hb3]] [Hm3 [Ho3 Hrun3]]]]].
  rewrite Hc2, Hc1, H2 in Hrun3.
  assert (Hunbound : client s3 = false)
    by (rewrite Hb3, Hb2, Hb1; reflexivity).
  unfold script, setup, shutdown.
  rewrite bind_and_then, try_except_catching.
  rewrite bind_and_then, bind_and_then, Hrun1.
  cbn [and_then catching exn_eqb]. rewrite Hrun2. cbn [after and_then].
  rewrite bind_and_then, Hrun3. cbn [and_then].
  assert (Hname :
    with_client (call E (Publish status_topic (lit "offline"))) s3 =
    (Raise NameError, s3, []))
    by (unfold with_client; now rewrite Hunbound).
  rewrite bind_and_then, Hname.
  cbn [and_then after]. unfold result_of, trace_of. cbn [fst snd].
  rewrite !app_nil_r, !main_events_app, !offline_publishes_app.
  rewrite Hm1, Hm2, Hm3, Ho1, Ho2, Ho3. repeat split.
Qed.

Lemma interrupt_before_the_client_exists_witness :
  result_of (script cfg_default E_interrupted_at_once 3 start)
    = Raise NameError /\
  offline_publishes
    (trace_of (script cfg_default E_interrupted_at_once 3 start)) = 0.
Proof.
  destruct (@interrupt_before_the_client_exists cfg_default
              E_interrupted_at_once 3 eq_refl eq_refl eq_refl)
    as [Hr [_ Ho]].
  split; [exact Hr | exact Ho].
Defined.

(** ** The [offline] status *)

Section Offline.

Variable cfg : config.
Variable E : env.

Ltac no_events :=
  intros; unfold trace_of, offline_publishes, number_of; cbn; lia.

Lemma at_most_weaken A n n' (m : M entry A) :
  n <= n' -> at_most n m -> at_most n' m.
Proof. intros Hle Hm s. specialize (Hm s). lia. Qed.

Lemma at_most_call e :
  at_most (if is_offline e then 1 else 0) (call E e).
Proof.
  intros s. destruct (call_run E e s) as [s1 [t1 [_ [_ [Ho Hrun]]]]].
  rewrite Hrun. unfold trace_of. cbn [snd]. now rewrite Ho.
Qed.

Lemma at_most_bind A B a b (m : M entry A) (f : A -> M entry B) :
  at_most a m -> (forall x, at_most b (f x)) -> at_most (a + b) (bind m f).
Proof.
  intros Hm Hf s. rewrite bind_and_then. specialize (Hm s).
  destruct (m s) as [[[x|e|] s1] t1]; unfold trace_of in *;
    cbn [and_then snd] in *; try lia.
  specialize (Hf x s1). destruct (f x s1) as [[r s2] t2].
  unfold trace_of in Hf. cbn [after snd] in *.
  rewrite offline_publishes_app. lia.
Qed.

Lemma at_most_try_except A a b (body handler : M entry A) exc :
  at_most a body -> at_most b handler ->
  at_most (a + b) (try_except body exc handler).
Proof.
  intros Hb Hh s. rewrite try_except_catching. specialize (Hb s).
  destruct (body s) as [[[x|e|] s1] t1]; unfold trace_of in *;
    cbn [catching snd] in *; try lia.
  destruct (exn_eqb e exc); [|cbn [snd]; lia].
  specialize (Hh s1). destruct (handler s1) as [[r s2] t2].
  unfold trace_of in Hh. cbn [after snd] in *.
  rewrite offline_publishes_app. lia.
Qed.

Lemma at_most_with_client A n (m : M entry A) :
  at_most n m -> at_most n (with_client m).
Proof.
  intros Hm s. unfold with_client. destruct (client s); [apply Hm|].
  no_events.
Qed.

Lemma silent_call e : is_offline e = false -> at_most 0 (call E e).
Proof. intros He. pose proof (at_most_call e) as H. now rewrite He in H. Qed.

Lemma silent_bind A B (m : M entry A) (f : A -> M entry B) :
  at_most 0 m -> (forall x, at_most 0 (f x)) -> at_most 0 (bind m f).
Proof. intros Hm Hf. exact (@at_most_bind A B 0 0 m f Hm Hf). Qed.

Lemma silent_time_sleep secs : at_most 0 (time_sleep E secs).
Proof.
  unfold time_sleep. destruct (sleep_fate E secs) as [e|].
  - intros s. no_events.
  - now apply silent_call.
Qed.

Lemma silent_heartbeat fuel : at_most 0 (heartbeat cfg E fuel).
Proof.
  induction fuel as [|fuel IH]; [intros s; no_events|].
  cbn [heartbeat].
  apply silent_bind; [now apply silent_call|]. intros _.
  apply silent_bind; [apply at_most_with_client; now apply silent_call|].
  intros _. apply silent_bind; [apply silent_time_sleep|]. intros _. exact IH.
Qed.

Lemma silent_client_connect : at_most 0 (client_connect cfg E).
Proof.
  unfold client_connect.
  apply silent_bind; [apply at_most_with_client; now apply silent_call|].
  intros _ s. no_events.
Qed.

Lemma silent_supervise fuel : at_most 0 (supervise cfg E fuel).
Proof.
  induction fuel as [|fuel IH]; [intros s; no_events|].
  cbn [supervise].
  apply silent_bind; [now apply silent_call|]. intros _.
  apply silent_bind; [|intros _; exact IH].
  apply (@at_most_try_except unit 0 0).
  - apply silent_bind; [apply silent_client_connect|]. intros _.
    apply silent_bind; [apply at_most_with_client; now apply silent_call|].
    intros _. apply silent_heartbeat.
  - apply silent_bind; [now apply silent_call|]. intros _.
    now apply silent_call.
Qed.

Lemma silent_setup : at_most 0 (setup cfg E).
Proof.
  unfold setup.
  apply silent_bind; [now apply silent_call|]. intros _.
  apply silent_bind; [intros s; no_events|]. intros _.
  apply silent_bind; [apply at_most_with_client; now apply silent_call|].
  intros _. apply at_most_with_client. now apply silent_call.
Qed.

Lemma shutdown_publishes_once_at_most : at_most 1 (shutdown E).
Proof.
  unfold shutdown.
  apply (@at_most_bind unit unit 0 1); [now apply silent_call|]. intros _.
  apply (@at_most_bind unit unit 1 0).
  { apply at_most_with_client.
    exact (at_most_call (Publish status_topic (lit "offline"))). }
  intros _. apply silent_bind; [now apply silent_call|]. intros _.
  apply silent_bind; [now apply silent_call|]. intros _.
  apply silent_bind; [apply at_most_with_client; now apply silent_call|].
  intros _. apply at_most_with_client. now apply silent_call.
Qed.

End Offline.

(** X13.  In every run of the script, whatever the interrupts, the outcomes
    of [connect], the messages received and the state it starts in, [offline]
    is published at most once by the two threads together: never by a
    callback, never from the loops, and once at most by the shutdown
    lines. *)
Theorem offline_is_published_at_most_once cfg E fuel s :
  offline_publishes (trace_of (script cfg E fuel s)) <= 1 /\
  offline_publishes
    (trace_of ((setup cfg E ;; supervise cfg E fuel) s)) = 0.
Proof.
  split.
  - revert s. change (at_most 1 (script cfg E fuel)). unfold script.
    apply (@at_most_bind unit unit 0 1).
    + apply (@at_most_try_except unit 0 0).
      * apply silent_bind; [apply silent_setup|]. intros _.
        apply silent_supervise.
      * now apply silent_call.
    + intros _. apply shutdown_publishes_once_at_most.
  - assert (H : at_most 0 (setup cfg E ;; supervise cfg E fuel)).
    { apply silent_bind; [apply silent_setup|]. intros _.
      apply silent_supervise. }
    specialize (H s). lia.
Qed.

(** ** A heartbeat interval that [time.sleep] refuses *)


